(** * Progress aggregation and the lesson/quiz session of the learning platform

    A shallow embedding of the progress computations of
    [ProgressDashboard], [CourseCard], [CourseDetail] and of the event
    handlers of [LessonView], together with the properties the
    specification states about them. *)

From Stdlib Require Import ZArith Lia Bool List.
From Stdlib Require Import Floats.PrimFloat Floats.SpecFloat Floats.FloatOps Uint63.
From stdpp Require Import gmap strings list fin_maps.

Local Open Scope Z_scope.

(** ** JavaScript numbers

    Every number of the program is an IEEE 754 binary64 value.  The integers
    the program handles (array lengths, counters, millisecond clock readings
    and their differences) are exact, so they are kept as [Z]; only the
    quotients [a / b] and the product [q * 100] are rounded, and these are
    modelled bit for bit: a finite double is a pair of a signed integer
    significand and an exponent, and every operation returns the double
    nearest to the exact result, ties going to the even significand.  The
    operands met here are array lengths and clock differences, far from
    overflow and underflow, so the exponent is left unbounded. *)

Module JS.

(** The double [Fnum * 2 ^ Fexp]. *)
Record number := Float { Fnum : Z; Fexp : Z }.

(** Nearest integer to [num / den] ([den > 0]), ties to even. *)
Definition rne (num den : Z) : Z :=
  let q := num / den in
  let r := num mod den in
  match 2 * r ?= den with
  | Lt => q
  | Gt => q + 1
  | Eq => if Z.even q then q else q + 1
  end.

(** [n / d / 2 ^ e] as the fraction [scale_num n e / scale_den d e]. *)
Definition scale_num (n e : Z) : Z := if e <? 0 then n * 2 ^ (- e) else n.
Definition scale_den (d e : Z) : Z := if e <? 0 then d else d * 2 ^ e.

(** The exponent [e] of the 53-bit significand of [n / d]:
    [2 ^ 52 <= |n / d| / 2 ^ e < 2 ^ 53]. *)
Definition ulp_exp (n d : Z) : Z :=
  let e0 := Z.log2 (Z.abs n) - Z.log2 d - 53 in
  if 2 ^ 53 * scale_den d e0 <=? scale_num (Z.abs n) e0 then e0 + 1 else e0.

(** The double nearest to the rational [n / d], [d > 0]. *)
Definition round_q (n d : Z) : number :=
  if n =? 0 then Float 0 0
  else let e := ulp_exp n d in
       Float (rne (scale_num n e) (scale_den d e)) e.

(** [a / b] on two integer-valued numbers, [b > 0]. *)
Definition div (a b : Z) : number := round_q a b.

(** [x * k] for an integer-valued [k]. *)
Definition mul (x : number) (k : Z) : number :=
  if Fexp x <? 0 then round_q (Fnum x * k) (2 ^ (- Fexp x))
  else round_q (Fnum x * k * 2 ^ Fexp x) 1.

(** [Math.round x]: the integer nearest to [x], halves going up. *)
Definition Math_round (x : number) : Z :=
  if Fexp x <? 0 then (Fnum x + 2 ^ (- Fexp x - 1)) / 2 ^ (- Fexp x)
  else Fnum x * 2 ^ Fexp x.

(** The same double in the Standard Library's IEEE 754 reference format. *)
Definition to_spec (x : number) : spec_float :=
  match Fnum x with
  | Z0 => S754_zero false
  | Zpos m => S754_finite false m (Fexp x)
  | Zneg m => S754_finite true m (Fexp x)
  end.

End JS.

(** ** Data model ([lib/supabase.ts])

    Timestamps are ISO strings in the source, produced by [toISOString] and
    read back with [new Date]; they are kept as the millisecond instant they
    denote.  Columns no computation reads (thumbnails, difficulty levels,
    creation stamps) are left out of the records. *)

Inductive Status := not_started | in_progress | completed.

#[global] Instance Status_eq_dec : EqDecision Status.
Proof. solve_decision. Defined.

Inductive ContentType := video | text | interactive | quiz.

#[global] Instance ContentType_eq_dec : EqDecision ContentType.
Proof. solve_decision. Defined.

Inductive Difficulty := easy | medium | hard.

Module Course.
Record t := {
  id : string;
  title : string;
  description : string;
  estimated_hours : Z;
  is_published : bool }.
End Course.

Module Lesson.
Record t := {
  id : string;
  course_id : string;
  title : string;
  content : string;
  order_index : Z;
  estimated_minutes : Z;
  content_type : ContentType }.
End Lesson.

Module UserProgress.
Record t := {
  id : string;
  user_id : string;
  lesson_id : string;
  course_id : string;
  status : Status;
  completion_percentage : Z;
  time_spent_minutes : Z;
  started_at : Z;
  completed_at : option Z;
  last_accessed_at : Z }.
End UserProgress.

Module Assessment.
Record t := {
  id : string;
  lesson_id : string;
  question : string;
  options : list string;
  correct_answer : string;
  explanation : string;
  difficulty : Difficulty }.
End Assessment.

(** The row handed to [user_assessments.insert]; [id] and [attempted_at]
    are filled in by the store. *)
Module UserAssessment.
Record t := {
  user_id : string;
  assessment_id : string;
  user_answer : string;
  is_correct : bool;
  time_taken_seconds : Z }.
End UserAssessment.

(** ** The percentage shared by the three views:
    [Math.round((completed / total) * 100)]. *)
Definition percent (completed total : nat) : Z :=
  JS.Math_round (JS.mul (JS.div (Z.of_nat completed) (Z.of_nat total)) 100).

(** Round-half-up of the exact quotient [100 * completed / total], to compare
    [percent] with. *)
Definition exact_percent (completed total : nat) : Z :=
  (200 * Z.of_nat completed + Z.of_nat total) / (2 * Z.of_nat total).

(** The quotient [100 * completed / total] lies exactly halfway between two
    integers. *)
Definition halfway (completed total : nat) : Prop :=
  (200 * Z.of_nat completed) mod (2 * Z.of_nat total) = Z.of_nat total.

(** ** Progress dashboard ([ProgressDashboard]) *)
Module ProgressDashboard.
Section Props.
Variable userProgress : list UserProgress.t.
Variable courses : list Course.t.

Definition week_ms : Z := 7 * 24 * 60 * 60 * 1000.

(** [now] is the instant [new Date()] returns; [setDate(getDate() - 7)]
    moves it seven calendar days back, which is [week_ms] milliseconds
    when no clock change falls inside the week. *)
Definition calculateWeeklyStats (now : Z) : nat * Z :=
  let oneWeekAgo := now - week_ms in
  let weeklyProgress :=
    filter (λ p, oneWeekAgo <= UserProgress.last_accessed_at p) userProgress in
  let lessonsThisWeek :=
    length (filter (λ p, UserProgress.status p = completed) weeklyProgress) in
  let minutesThisWeek :=
    foldl (λ sum p, sum + UserProgress.time_spent_minutes p) 0 weeklyProgress in
  (lessonsThisWeek, minutesThisWeek).

Definition getCourseProgress (courseId : string) : Z :=
  let courseProgress :=
    filter (λ p, UserProgress.course_id p = courseId) userProgress in
  let completed :=
    length (filter (λ p, UserProgress.status p = completed) courseProgress) in
  let total := length courseProgress in
  if (0 <? total)%nat then percent completed total else 0.


Definition totalTime : Z :=
  foldl (λ sum p, sum + UserProgress.time_spent_minutes p) 0 userProgress.

Definition activeCourses : list Course.t :=
  filter (λ course,
            Exists (λ p, UserProgress.course_id p = Course.id course
                         ∧ UserProgress.status p ≠ not_started) userProgress)
         courses.
End Props.
End ProgressDashboard.

(** ** Course card ([CourseCard]); [progress] is the prop the dashboard
    passes, see [Dashboard.cardProgress]. *)
Module CourseCard.
Definition progressPercentage (progress : list UserProgress.t) : Z :=
  let completedLessons :=
    length (filter (λ p, UserProgress.status p = completed) progress) in
  let totalLessons := length progress in
  if (0 <? totalLessons)%nat then percent completedLessons totalLessons else 0.
End CourseCard.

Module Dashboard.
(** [progress={userProgress.filter(p => p.course_id === course.id)}] *)
Definition cardProgress (userProgress : list UserProgress.t) (course : Course.t)
  : list UserProgress.t :=
  filter (λ p, UserProgress.course_id p = Course.id course) userProgress.
End Dashboard.

(** ** Course detail ([CourseDetail]); [lessons] and [userProgress] are the
    two query results of [loadLessons], both restricted to the course. *)
Module CourseDetail.
Definition progressPercentage
  (lessons : list Lesson.t) (userProgress : list UserProgress.t) : Z :=
  let completedCount :=
    length (filter (λ p, UserProgress.status p = completed) userProgress) in
  if (0 <? length lessons)%nat then percent completedCount (length lessons) else 0.
End CourseDetail.

(** ** The record store and the clock seen by a lesson view *)

(** The object [progressData] built by [updateProgress]; [completed_at] is
    [None] when the key is left out of the object. *)
Module ProgressData.
Record t := {
  user_id : string;
  lesson_id : string;
  course_id : string;
  status : Status;
  completion_percentage : Z;
  time_spent_minutes : Z;
  last_accessed_at : Z;
  completed_at : option Z }.
End ProgressData.

Inductive Effect :=
| Upsert (data : ProgressData.t)
| InsertAttempt (attempt : UserAssessment.t)
| OnClose.

(** [user_progress] holds one row per (user, lesson), as the table's
    [UNIQUE(user_id, lesson_id)] has it; [user_assessments] is the
    append-only attempt log.  [clock] lists the successive readings of the
    browser clock ([Date.now()] and [new Date()]), [reads] counts the
    readings taken so far.  [db_uuid] and [db_now] are the defaults the store
    fills in for the n-th inserted row ([gen_random_uuid()], [now()]).
    [trace] records what the view sent out, oldest first.  Requests to the
    store are taken to succeed, and a handler runs to its end before the
    next event is handled. *)
Record World := {
  clock : nat → Z;
  reads : nat;
  db_uuid : nat → string;
  db_now : nat → Z;
  assessments_table : list Assessment.t;
  user_progress : gmap (string * string) UserProgress.t;
  user_assessments : list UserAssessment.t;
  trace : list Effect }.

Definition set_reads (n : nat) (w : World) : World :=
  {| clock := clock w; reads := n; db_uuid := db_uuid w; db_now := db_now w;
     assessments_table := assessments_table w;
     user_progress := user_progress w;
     user_assessments := user_assessments w; trace := trace w |}.

Definition set_user_progress (m : gmap (string * string) UserProgress.t) (w : World)
  : World :=
  {| clock := clock w; reads := reads w; db_uuid := db_uuid w; db_now := db_now w;
     assessments_table := assessments_table w;
     user_progress := m;
     user_assessments := user_assessments w; trace := trace w |}.

Definition set_user_assessments (l : list UserAssessment.t) (w : World) : World :=
  {| clock := clock w; reads := reads w; db_uuid := db_uuid w; db_now := db_now w;
     assessments_table := assessments_table w;
     user_progress := user_progress w;
     user_assessments := l; trace := trace w |}.

Definition set_trace (t : list Effect) (w : World) : World :=
  {| clock := clock w; reads := reads w; db_uuid := db_uuid w; db_now := db_now w;
     assessments_table := assessments_table w;
     user_progress := user_progress w;
     user_assessments := user_assessments w; trace := t |}.

(** Handlers run in a state monad over the world; [None] is an uncaught
    [TypeError]. *)
Definition M (A : Type) : Type := World → option (A * World).

#[global] Instance M_ret : MRet M := λ A a w, Some (a, w).

#[global] Instance M_bind : MBind M :=
  λ A B k c w, match c w with
               | Some (a, w') => k a w'
               | None => None
               end.

Definition throw {A} : M A := λ _, None.

Definition emit (e : Effect) : M unit :=
  λ w, Some (tt, set_trace (trace w ++ [e]) w).

(** [Date.now()], and the instant of [new Date()]. *)
Definition Date_now : M Z :=
  λ w, Some (clock w (reads w), set_reads (S (reads w)) w).

(** [supabase.from('user_progress').update(data).eq('id', existing.id)]:
    the columns named in [data] are overwritten, the others keep their
    value. *)
Definition patch (data : ProgressData.t) (row : UserProgress.t) : UserProgress.t :=
  {| UserProgress.id := UserProgress.id row;
     UserProgress.user_id := ProgressData.user_id data;
     UserProgress.lesson_id := ProgressData.lesson_id data;
     UserProgress.course_id := ProgressData.course_id data;
     UserProgress.status := ProgressData.status data;
     UserProgress.completion_percentage := ProgressData.completion_percentage data;
     UserProgress.time_spent_minutes := ProgressData.time_spent_minutes data;
     UserProgress.started_at := UserProgress.started_at row;
     UserProgress.completed_at :=
       match ProgressData.completed_at data with
       | Some t => Some t
       | None => UserProgress.completed_at row
       end;
     UserProgress.last_accessed_at := ProgressData.last_accessed_at data |}.

(** [supabase.from('user_progress').insert(data)]: the columns left out
    take the table's defaults. *)
Definition fresh_row (w : World) (data : ProgressData.t) : UserProgress.t :=
  let n := size (user_progress w) in
  {| UserProgress.id := db_uuid w n;
     UserProgress.user_id := ProgressData.user_id data;
     UserProgress.lesson_id := ProgressData.lesson_id data;
     UserProgress.course_id := ProgressData.course_id data;
     UserProgress.status := ProgressData.status data;
     UserProgress.completion_percentage := ProgressData.completion_percentage data;
     UserProgress.time_spent_minutes := ProgressData.time_spent_minutes data;
     UserProgress.started_at := db_now w n;
     UserProgress.completed_at := ProgressData.completed_at data;
     UserProgress.last_accessed_at := ProgressData.last_accessed_at data |}.

Definition select_progress (user_id lesson_id : string) : M (option UserProgress.t) :=
  λ w, Some (user_progress w !! (user_id, lesson_id), w).

Definition update_progress (key : string * string) (data : ProgressData.t) : M unit :=
  λ w, Some (tt, set_user_progress (alter (patch data) key (user_progress w)) w).

Definition insert_progress (data : ProgressData.t) : M unit :=
  λ w, Some (tt, set_user_progress
                   (<[(ProgressData.user_id data, ProgressData.lesson_id data)
                      := fresh_row w data]> (user_progress w)) w).

Definition insert_attempt (a : UserAssessment.t) : M unit :=
  λ w, Some (tt, set_trace (trace w ++ [InsertAttempt a])
                   (set_user_assessments (user_assessments w ++ [a]) w)).

(** ** Lesson view ([LessonView]) *)
Module LessonView.

Record Props := {
  lesson : Lesson.t;
  course : Course.t;
  user : option string (* [user.id] of the signed-in user, if any *) }.

(** The component's [useState] cells. *)
Record State := {
  assessments : list Assessment.t;
  currentQuestion : nat;
  selectedAnswer : string;
  showExplanation : bool;
  isCorrect : option bool;
  quizCompleted : bool;
  score : Z;
  startTime : Z }.

Section Handlers.
Variable props : Props.

Definition loadAssessments : M (list Assessment.t) :=
  λ w, Some (filter (λ a, Assessment.lesson_id a = Lesson.id (lesson props))
                    (assessments_table w), w).

Definition updateProgress (startTime : Z) (status : Status)
    (completionPercentage : Z) : M unit :=
  match user props with
  | None => mret tt
  | Some uid =>
      now ← Date_now;
      let timeSpent := JS.Math_round (JS.div (now - startTime) 60000) in
      accessed ← Date_now;
      completed_at ← (if decide (status = completed)
                      then (t ← Date_now; mret (Some t))
                      else mret None);
      let progressData :=
        {| ProgressData.user_id := uid;
           ProgressData.lesson_id := Lesson.id (lesson props);
           ProgressData.course_id := Course.id (course props);
           ProgressData.status := status;
           ProgressData.completion_percentage := completionPercentage;
           ProgressData.time_spent_minutes := timeSpent;
           ProgressData.last_accessed_at := accessed;
           ProgressData.completed_at := completed_at |} in
      existing ← select_progress uid (Lesson.id (lesson props));
      emit (Upsert progressData);;
      match existing with
      | Some _ => update_progress (uid, Lesson.id (lesson props)) progressData
      | None => insert_progress progressData
      end
  end.

(** First render and the [useEffect] that follows it. *)
Definition mount : M State :=
  startTime ← Date_now;
  assessments ← (if decide (Lesson.content_type (lesson props) = quiz)
                 then loadAssessments else mret []);
  updateProgress startTime in_progress 0;;
  mret {| assessments := assessments; currentQuestion := 0;
         selectedAnswer := ""; showExplanation := false; isCorrect := None;
         quizCompleted := false; score := 0; startTime := startTime |}.

Definition handleCompleteLesson (s : State) : M State :=
  updateProgress (startTime s) completed 100;;
  emit OnClose;;
  mret s.

Definition handleAnswerSubmit (s : State) : M State :=
  if decide (selectedAnswer s = "" ∨ user props = None) then mret s
  else
    match assessments s !! currentQuestion s, user props with
    | Some currentAssessment, Some uid =>
        let correct :=
          bool_decide (selectedAnswer s = Assessment.correct_answer currentAssessment) in
        now ← Date_now;
        let timeTaken := JS.Math_round (JS.div (now - startTime s) 1000) in
        insert_attempt
          {| UserAssessment.user_id := uid;
             UserAssessment.assessment_id := Assessment.id currentAssessment;
             UserAssessment.user_answer := selectedAnswer s;
             UserAssessment.is_correct := correct;
             UserAssessment.time_taken_seconds := timeTaken |};;
        let progress :=
          percent (currentQuestion s + 1) (length (assessments s)) in
        updateProgress (startTime s) in_progress progress;;
        mret {| assessments := assessments s;
               currentQuestion := currentQuestion s;
               selectedAnswer := selectedAnswer s;
               showExplanation := true;
               isCorrect := Some correct;
               quizCompleted := quizCompleted s;
               score := if correct then score s + 1 else score s;
               startTime := startTime s |}
    | _, _ => throw
    end.

Definition handleNextQuestion (s : State) : M State :=
  if Z.of_nat (currentQuestion s) <? Z.of_nat (length (assessments s)) - 1 then
    mret {| assessments := assessments s;
           currentQuestion := currentQuestion s + 1;
           selectedAnswer := "";
           showExplanation := false;
           isCorrect := None;
           quizCompleted := quizCompleted s;
           score := score s;
           startTime := startTime s |}
  else
    updateProgress (startTime s) completed 100;;
    mret {| assessments := assessments s;
           currentQuestion := currentQuestion s;
           selectedAnswer := selectedAnswer s;
           showExplanation := showExplanation s;
           isCorrect := isCorrect s;
           quizCompleted := true;
           score := score s;
           startTime := startTime s |}.

(** The [onClick] of an option button. *)
Definition selectOption (option : string) (s : State) : State :=
  if showExplanation s then s
  else {| assessments := assessments s;
          currentQuestion := currentQuestion s;
          selectedAnswer := option;
          showExplanation := showExplanation s;
          isCorrect := isCorrect s;
          quizCompleted := quizCompleted s;
          score := score s;
          startTime := startTime s |}.

(** What the component renders, in the specification's state names. *)
Inductive Screen :=
| Viewing
| AnsweringQuestion (index : nat)
| ShowingExplanation (index : nat) (wasCorrect : option bool)
| QuizCompleted.

Definition screen (s : State) : Screen :=
  if decide (Lesson.content_type (lesson props) = quiz
             ∧ (0 < length (assessments s))%nat)
  then if quizCompleted s then QuizCompleted
       else if showExplanation s
            then ShowingExplanation (currentQuestion s) (isCorrect s)
            else AnsweringQuestion (currentQuestion s)
  else Viewing.

(** The operations that issue progress upserts. *)
Inductive Operation := SessionOpen | SubmitAnswer | Advance | MarkComplete.

End Handlers.
End LessonView.

(** ** Running the view

    [run op s] is what the view does for each operation of the session;
    [issued c w] is what the computation [c] sends out when started in [w].
    The definitions after them name the outcome of the handlers
    ([progressData_in], [attempt_in], [judged], [upserted], [effects]); the
    lemmas [updateProgress_signed_in] to [issued_run] below prove that the
    handlers produce exactly these. *)
Module Session.
Import LessonView.

Definition run (props : Props) (op : Operation) (s : State) : M State :=
  match op with
  | SessionOpen => mount props
  | SubmitAnswer => handleAnswerSubmit props s
  | Advance => handleNextQuestion props s
  | MarkComplete => handleCompleteLesson props s
  end.

Definition issued {A} (c : M A) (w : World) : list Effect :=
  match c w with
  | Some (_, w') => drop (length (trace w)) (trace w')
  | None => []
  end.

Definition upserts (t : list Effect) : list ProgressData.t :=
  omap (λ e, match e with Upsert d => Some d | _ => None end) t.

Definition attempts (t : list Effect) : list UserAssessment.t :=
  omap (λ e, match e with InsertAttempt a => Some a | _ => None end) t.

(** The [progressData] that [updateProgress] builds in world [w] for the
    signed-in user [uid]. *)
Definition progressData_in (props : Props) (uid : string) (startTime : Z)
    (status : Status) (completionPercentage : Z) (w : World) : ProgressData.t :=
  {| ProgressData.user_id := uid;
     ProgressData.lesson_id := Lesson.id (lesson props);
     ProgressData.course_id := Course.id (course props);
     ProgressData.status := status;
     ProgressData.completion_percentage := completionPercentage;
     ProgressData.time_spent_minutes :=
       JS.Math_round (JS.div (clock w (reads w) - startTime) 60000);
     ProgressData.last_accessed_at := clock w (S (reads w));
     ProgressData.completed_at :=
       if decide (status = completed) then Some (clock w (S (S (reads w))))
       else None |}.

(** The store after the upsert of [data]. *)
Definition upserted (w : World) (data : ProgressData.t)
  : gmap (string * string) UserProgress.t :=
  let key := (ProgressData.user_id data, ProgressData.lesson_id data) in
  match user_progress w !! key with
  | Some _ => alter (patch data) key (user_progress w)
  | None => <[key := fresh_row w data]> (user_progress w)
  end.

(** The attempt row that [handleAnswerSubmit] logs in world [w] when the
    current question is [a]. *)
Definition attempt_in (uid : string) (s : State) (a : Assessment.t) (w : World)
  : UserAssessment.t :=
  {| UserAssessment.user_id := uid;
     UserAssessment.assessment_id := Assessment.id a;
     UserAssessment.user_answer := selectedAnswer s;
     UserAssessment.is_correct :=
       bool_decide (selectedAnswer s = Assessment.correct_answer a);
     UserAssessment.time_taken_seconds :=
       JS.Math_round (JS.div (clock w (reads w) - startTime s) 1000) |}.

(** The view after an answer was judged [correct]. *)
Definition judged (correct : bool) (s : State) : State :=
  {| assessments := assessments s;
     currentQuestion := currentQuestion s;
     selectedAnswer := selectedAnswer s;
     showExplanation := true;
     isCorrect := Some correct;
     quizCompleted := quizCompleted s;
     score := if correct then score s + 1 else score s;
     startTime := startTime s |}.




(** What each operation sends out, in order. *)
Definition effects (props : Props) (op : Operation) (s : State) (w : World)
  : list Effect :=
  match user props with
  | None => match op with MarkComplete => [OnClose] | _ => [] end
  | Some uid =>
      match op with
      | SessionOpen =>
          [Upsert (progressData_in props uid (clock w (reads w)) in_progress 0
                     (set_reads (S (reads w)) w))]
      | SubmitAnswer =>
          if decide (selectedAnswer s = "") then []
          else match assessments s !! currentQuestion s with
               | Some a =>
                   [InsertAttempt (attempt_in uid s a w);
                    Upsert (progressData_in props uid (startTime s) in_progress
                              (percent (currentQuestion s + 1) (length (assessments s)))
                              (set_reads (S (reads w)) w))]
               | None => []
               end
      | Advance =>
          if decide (currentQuestion s + 1 < length (assessments s))%nat then []
          else [Upsert (progressData_in props uid (startTime s) completed 100 w)]
      | MarkComplete =>
          [Upsert (progressData_in props uid (startTime s) completed 100 w); OnClose]
      end
  end.

(** The instant elapsed times are measured from: read when the view opens,
    kept in [startTime] afterwards. *)
Definition base (op : Operation) (s : State) (w : World) : Z :=
  match op with
  | SessionOpen => clock w (reads w)
  | _ => startTime s
  end.
End Session.

(** ** The operations as the specification words them *)
Module Spec.

Definition courseCompletionPercent (records : list UserProgress.t)
    (courseId : string) : Z :=
  let ofCourse := filter (λ p, UserProgress.course_id p = courseId) records in
  let completedCount :=
    length (filter (λ p, UserProgress.status p = completed) ofCourse) in
  let totalCount := length ofCourse in
  if decide (totalCount = 0%nat) then 0
  else exact_percent completedCount totalCount.

(** Whole minutes of an elapsed time in milliseconds, fraction dropped;
    whole seconds, rounded to the nearest. *)
Definition elapsedMinutes (elapsed_ms : Z) : Z := elapsed_ms / 60000.
Definition elapsedSeconds (elapsed_ms : Z) : Z := (elapsed_ms + 500) / 1000.

(** Whole minutes rounded to the nearest, half a minute going up. *)
Definition nearestMinutes (elapsed_ms : Z) : Z := (elapsed_ms + 30000) / 60000.
End Spec.

(** ** Sample data *)
Module Sample.
Import LessonView.

Definition record (lessonId courseId : string) (st : Status) (pct minutes last : Z)
  : UserProgress.t :=
  {| UserProgress.id := "row-" +:+ lessonId;
     UserProgress.user_id := "u1";
     UserProgress.lesson_id := lessonId;
     UserProgress.course_id := courseId;
     UserProgress.status := st;
     UserProgress.completion_percentage := pct;
     UserProgress.time_spent_minutes := minutes;
     UserProgress.started_at := 0;
     UserProgress.completed_at := if decide (st = completed) then Some last else None;
     UserProgress.last_accessed_at := last |}.

Definition aCourse (courseId : string) : Course.t :=
  {| Course.id := courseId; Course.title := "Course " +:+ courseId;
     Course.description := ""; Course.estimated_hours := 4;
     Course.is_published := true |}.

Definition aLesson (lessonId courseId : string) (kind : ContentType) : Lesson.t :=
  {| Lesson.id := lessonId; Lesson.course_id := courseId;
     Lesson.title := "Lesson " +:+ lessonId; Lesson.content := "";
     Lesson.order_index := 0; Lesson.estimated_minutes := 15;
     Lesson.content_type := kind |}.

Definition question (qid lessonId right : string) : Assessment.t :=
  {| Assessment.id := qid; Assessment.lesson_id := lessonId;
     Assessment.question := "?"; Assessment.options := ["A"; "B"; "C"];
     Assessment.correct_answer := right; Assessment.explanation := "";
     Assessment.difficulty := medium |}.

Definition quizProps : Props :=
  {| lesson := aLesson "L1" "C1" quiz; course := aCourse "C1"; user := Some "u1" |}.

Definition textProps : Props :=
  {| lesson := aLesson "L2" "C1" text; course := aCourse "C1"; user := Some "u1" |}.

(** A store holding three questions for lesson L1 (and one of another
    lesson), no progress yet; the clock advances half a minute per
    reading. *)
Definition world : World :=
  {| clock := λ n, 1700000000000 + 30000 * Z.of_nat n;
     reads := 0;
     db_uuid := λ n, "uuid";
     db_now := λ n, 1700000000000;
     assessments_table :=
       [question "q1" "L1" "A"; question "q2" "L1" "C"; question "x" "L9" "B";
        question "q3" "L1" "B"];
     user_progress := ∅;
     user_assessments := [];
     trace := [] |}.

(** The same store once [n] clock readings have been taken. *)
Definition later (n : nat) : World := set_reads n world.

(** The same store after lesson L1 was completed in an earlier visit. *)
Definition revisited : World :=
  set_user_progress
    {[ ("u1", "L1") := record "L1" "C1" completed 100 6 1690000000000 ]} world.

(** A view on question [i] of a quiz of [n] copies of one question, with
    answer A chosen. *)
Definition answering (i n : nat) : State :=
  {| assessments := replicate n (question "q" "L1" "A");
     currentQuestion := i; selectedAnswer := "A"; showExplanation := false;
     isCorrect := None; quizCompleted := false; score := 0;
     startTime := 1700000000000 |}.

(** The same view with no answer chosen yet. *)
Definition unanswered (i n : nat) : State := selectOption "" (answering i n).

(** Forty records of course C1, twenty-three of them completed. *)
Definition fortyRecords : list UserProgress.t :=
  replicate 23 (record "l" "C1" completed 100 5 0)
  ++ replicate 17 (record "l" "C1" in_progress 50 5 0).

Definition threeLessons : list Lesson.t :=
  [aLesson "L1" "C1" quiz; aLesson "L2" "C1" text; aLesson "L3" "C1" video].

Definition oneRecord : list UserProgress.t :=
  [record "L1" "C1" completed 100 6 0].
End Sample.

(** ** The rest of the progress dashboard ([ProgressDashboard]) *)
Module JSMath.
(** [Math.floor x]: the largest integer not above [x]. *)
Definition Math_floor (x : JS.number) : Z :=
  if JS.Fexp x <? 0 then JS.Fnum x / 2 ^ (- JS.Fexp x)
  else JS.Fnum x * 2 ^ JS.Fexp x.
End JSMath.

Module ProgressCards.
(** The "Learning Time" card: [Math.floor(totalTime / 60)]. *)
Definition learningHours (userProgress : list UserProgress.t) : Z :=
  JSMath.Math_floor (JS.div (ProgressDashboard.totalTime userProgress) 60).


End ProgressCards.

(** ** The dashboard page ([Dashboard]) *)
Inductive LearningStyle := visual | auditory | kinesthetic | reading.
Inductive SkillLevel := beginner | intermediate | advanced.

Module Profile.
Record t := {
  id : string;
  email : string;
  full_name : string;
  learning_style : LearningStyle;
  skill_level : SkillLevel;
  created_at : Z;
  updated_at : Z }.
End Profile.

(** [Partial<Profile>]: [None] where the key is absent. *)
Module ProfileUpdates.
Record t := {
  id : option string;
  email : option string;
  full_name : option string;
  learning_style : option LearningStyle;
  skill_level : option SkillLevel;
  created_at : option Z;
  updated_at : option Z }.
End ProfileUpdates.

Module DashboardPage.

(** ['courses' | 'course-detail' | 'progress' | 'profile'] *)
Inductive View := view_courses | view_course_detail | view_progress | view_profile.

#[global] Instance View_eq_dec : EqDecision View.
Proof. solve_decision. Defined.

(** The two [useState] cells that decide what the page shows. *)
Record Nav := {
  currentView : View;
  selectedCourse : option Course.t }.

Definition initial : Nav := {| currentView := view_courses; selectedCourse := None |}.

Definition handleCourseClick (course : Course.t) (n : Nav) : Nav :=
  {| currentView := view_course_detail; selectedCourse := Some course |}.

Definition handleBackToCourses (n : Nav) : Nav :=
  {| currentView := view_courses; selectedCourse := None |}.

Definition setCurrentView (v : View) (n : Nav) : Nav :=
  {| currentView := v; selectedCourse := selectedCourse n |}.

(** What can be clicked: a course card, the detail view's back button, and
    the three buttons of the navigation bar. *)
Inductive Click :=
| ClickCourse (course : Course.t)
| ClickBack
| ClickCourses
| ClickProgress
| ClickProfile.

Definition click (c : Click) (n : Nav) : Nav :=
  match c with
  | ClickCourse course => handleCourseClick course n
  | ClickBack => handleBackToCourses n
  | ClickCourses => setCurrentView view_courses n
  | ClickProgress => setCurrentView view_progress n
  | ClickProfile => setCurrentView view_profile n
  end.

(** The course whose [CourseDetail] is rendered:
    [currentView === 'course-detail' && selectedCourse]. *)
Definition detailShown (n : Nav) : option Course.t :=
  if decide (currentView n = view_course_detail) then selectedCourse n else None.

Definition calculateStats (userProgress : list UserProgress.t) : nat * Z * nat :=
  let completedLessons :=
    length (filter (λ p, UserProgress.status p = completed) userProgress) in
  let totalTime :=
    foldl (λ sum p, sum + UserProgress.time_spent_minutes p) 0 userProgress in
  let inProgressCourses :=
    size (list_to_set
            (UserProgress.course_id
               <$> filter (λ p, UserProgress.status p = in_progress) userProgress)
          : gset string) in
  (completedLessons, totalTime, inProgressCourses).

(** The course ids that go into the [Set] of [calculateStats]. *)
Definition inProgressIds (userProgress : list UserProgress.t) : list string :=
  UserProgress.course_id
    <$> filter (λ p, UserProgress.status p = in_progress) userProgress.

(** [{ ...prev, ...updates }] *)
Definition merge (prev : Profile.t) (updates : ProfileUpdates.t) : Profile.t :=
  {| Profile.id := default (Profile.id prev) (ProfileUpdates.id updates);
     Profile.email := default (Profile.email prev) (ProfileUpdates.email updates);
     Profile.full_name :=
       default (Profile.full_name prev) (ProfileUpdates.full_name updates);
     Profile.learning_style :=
       default (Profile.learning_style prev) (ProfileUpdates.learning_style updates);
     Profile.skill_level :=
       default (Profile.skill_level prev) (ProfileUpdates.skill_level updates);
     Profile.created_at :=
       default (Profile.created_at prev) (ProfileUpdates.created_at updates);
     Profile.updated_at :=
       default (Profile.updated_at prev) (ProfileUpdates.updated_at updates) |}.

(** The page's [profile] cell and the [profiles] table, one row per user
    id. *)
Record ProfileState := {
  profile : option Profile.t;
  profiles : gmap string Profile.t }.

(** [supabase.from('profiles').update(updates).eq('id', user.id)]: the
    request either fails, leaving the table as it was, or overwrites the
    columns named in [updates]; the result is the new table and whether an
    error came back. *)
Definition profiles_update (uid : string) (updates : ProfileUpdates.t)
    (fails : bool) (table : gmap string Profile.t) : gmap string Profile.t * bool :=
  if fails then (table, true)
  else (alter (λ row, merge row updates) uid table, false).

Definition updateProfile (user : option string) (updates : ProfileUpdates.t)
    (fails : bool) (st : ProfileState) : ProfileState :=
  match user with
  | None => st
  | Some uid =>
      let '(table, error) := profiles_update uid updates fails (profiles st) in
      {| profile := if error then profile st
                    else (λ prev, merge prev updates) <$> profile st;
         profiles := table |}
  end.

End DashboardPage.

(** ** The lesson list of the course page ([CourseDetail]) *)
Module LessonList.

Inductive Icon := Circle | CheckCircle | PlayCircle.

#[global] Instance Icon_eq_dec : EqDecision Icon.
Proof. solve_decision. Defined.

Definition getLessonProgress (userProgress : list UserProgress.t) (lessonId : string)
  : option UserProgress.t :=
  List.find (λ p, bool_decide (UserProgress.lesson_id p = lessonId)) userProgress.

Definition getProgressIcon (userProgress : list UserProgress.t) (lessonId : string)
  : Icon :=
  match getLessonProgress userProgress lessonId with
  | None => Circle
  | Some progress =>
      if decide (UserProgress.status progress = not_started) then Circle
      else if decide (UserProgress.status progress = completed) then CheckCircle
      else PlayCircle
  end.

(** The "n% complete" note next to a lesson, when it is shown. *)
Definition percentNote (userProgress : list UserProgress.t) (lessonId : string)
  : option Z :=
  match getLessonProgress userProgress lessonId with
  | Some progress =>
      if decide (0 < UserProgress.completion_percentage progress
                 ∧ UserProgress.status progress ≠ completed)
      then Some (UserProgress.completion_percentage progress)
      else None
  | None => None
  end.

(** The second query of [loadLessons]: the rows of the user for the
    course, in the order the store returns them. *)
Definition fetchProgress (uid courseId : string)
    (table : gmap (string * string) UserProgress.t) : list UserProgress.t :=
  filter (λ p, UserProgress.user_id p = uid ∧ UserProgress.course_id p = courseId)
         (map_to_list table).*2.

End LessonList.

(** ** What the lesson view offers to click ([LessonView], the rendered
    tree) *)
Module LessonUI.
Import LessonView.

Inductive Event :=
| ChooseOption (option : string)
| ClickSubmit
| ClickNext.

(** The buttons the render shows and leaves enabled: the options of the
    current question and "Submit Answer" while the question is open (the
    latter once an answer is chosen), "Next Question" / "Complete Quiz" once
    the explanation is shown. *)
Definition offered (props : Props) (s : State) (e : Event) : Prop :=
  match e with
  | ChooseOption option =>
      ∃ i a, screen props s = AnsweringQuestion i
             ∧ assessments s !! i = Some a
             ∧ option ∈ Assessment.options a
  | ClickSubmit =>
      (∃ i, screen props s = AnsweringQuestion i) ∧ selectedAnswer s ≠ ""
  | ClickNext => ∃ i c, screen props s = ShowingExplanation i c
  end.

Definition handle (props : Props) (e : Event) (s : State) : M State :=
  match e with
  | ChooseOption option => mret (selectOption option s)
  | ClickSubmit => handleAnswerSubmit props s
  | ClickNext => handleNextQuestion props s
  end.

(** The states a view reaches from its opening in [w0] by clicking what is
    offered. *)
Inductive reachable (props : Props) (w0 : World) : State → World → Prop :=
| reach_open s w :
    mount props w0 = Some (s, w) → reachable props w0 s w
| reach_click s w e s' w' :
    reachable props w0 s w → offered props s e →
    handle props e s w = Some (s', w') → reachable props w0 s' w'.

End LessonUI.

(** ** The progress table after an operation *)
Module Store.
(** The table once the upsert among the effects [new] of one operation, if
    there is one, has been applied. *)
Definition after_upserts (w : World) (new : list Effect)
  : gmap (string * string) UserProgress.t :=
  match Session.upserts new with
  | [] => user_progress w
  | data :: _ => Session.upserted w data
  end.

(** The table holds each row under its own user and lesson: the
    [UNIQUE(user_id, lesson_id)] constraint of the migration. *)
Definition keyed (table : gmap (string * string) UserProgress.t) : Prop :=
  ∀ key row, table !! key = Some row →
             key = (UserProgress.user_id row, UserProgress.lesson_id row).
End Store.

(** ** What holds of every state of a lesson view *)
Module LessonInv.
Import LessonView.

(** The questions answered so far: those before the current one, and the
    current one once its explanation is shown. *)
Definition answered (s : State) : nat :=
  (currentQuestion s + (if showExplanation s then 1 else 0))%nat.

(** The attempt [t] is an answer to the question [q]: one of its options,
    marked right exactly when it equals the correct answer. *)
Definition attempt_of (t : UserAssessment.t) (q : Assessment.t) : Prop :=
  UserAssessment.assessment_id t = Assessment.id q
  ∧ UserAssessment.user_answer t ∈ Assessment.options q
  ∧ UserAssessment.is_correct t
    = bool_decide (UserAssessment.user_answer t = Assessment.correct_answer q).

(** The state [s] and world [w] of a view opened in [w0], with [logged]
    the attempts it has added to the log. *)
Definition invariant (props : Props) (w0 : World) (s : State) (w : World)
    (logged : list UserAssessment.t) : Prop :=
  assessments s
  = (if decide (Lesson.content_type (lesson props) = quiz)
     then filter (λ a, Assessment.lesson_id a = Lesson.id (lesson props))
                 (assessments_table w0)
     else [])
  ∧ assessments_table w = assessments_table w0
  ∧ user_assessments w = user_assessments w0 ++ logged
  ∧ (assessments s ≠ [] → (currentQuestion s < length (assessments s))%nat)
  ∧ (answered s ≤ length (assessments s))%nat
  ∧ Forall2 attempt_of logged (take (answered s) (assessments s))
  ∧ score s
    = Z.of_nat (length (filter (λ t, UserAssessment.is_correct t = true) logged))
  ∧ (showExplanation s = false →
     selectedAnswer s = ""
     ∨ ∃ a, assessments s !! currentQuestion s = Some a
            ∧ selectedAnswer s ∈ Assessment.options a)
  ∧ (quizCompleted s = true → showExplanation s = true).

End LessonInv.

(** ** Marking a quiz by hand *)
Module Quiz.
End Quiz.

(** ** More sample data *)
Module Sample2.

Definition aProfile : Profile.t :=
  {| Profile.id := "u1"; Profile.email := "u1@example.org";
     Profile.full_name := "Ada"; Profile.learning_style := visual;
     Profile.skill_level := beginner; Profile.created_at := 0;
     Profile.updated_at := 0 |}.

(** What typing a new name into the "Full Name" field sends. *)
Definition rename (name : string) : ProfileUpdates.t :=
  {| ProfileUpdates.id := None; ProfileUpdates.email := None;
     ProfileUpdates.full_name := Some name;
     ProfileUpdates.learning_style := None; ProfileUpdates.skill_level := None;
     ProfileUpdates.created_at := None; ProfileUpdates.updated_at := None |}.

Definition profileState : DashboardPage.ProfileState :=
  {| DashboardPage.profile := Some aProfile;
     DashboardPage.profiles := {[ "u1" := aProfile ]} |}.

End Sample2.

(** ** Reference arithmetic

    The same quotient and product computed by the Standard Library's
    executable IEEE 754 specification and by the machine's own binary64
    unit, to check [JS.div] and [JS.mul] against. *)
Module IEEE.
Definition of_Z (n : Z) : spec_float := binary_normalize 53 1024 n 0 false.

Definition div (a b : Z) : spec_float := SFdiv 53 1024 (of_Z a) (of_Z b).

Definition mul (x : spec_float) (k : Z) : spec_float :=
  SFmul 53 1024 x (of_Z k).

Definition hw_div (a b : Z) : float :=
  PrimFloat.div (of_uint63 (Uint63.of_Z a)) (of_uint63 (Uint63.of_Z b)).

Definition hw_mul (x : float) (k : Z) : float :=
  PrimFloat.mul x (of_uint63 (Uint63.of_Z k)).

Definition spec_eqb (x y : spec_float) : bool :=
  match x, y with
  | S754_zero s, S754_zero s' => Bool.eqb s s'
  | S754_finite s m e, S754_finite s' m' e' =>
      Bool.eqb s s' && Pos.eqb m m' && Z.eqb e e'
  | _, _ => false
  end.

(** All pairs [(c, t)] with [0 <= c <= t], [1 <= t <= n]. *)
Definition grid (n : nat) : list (Z * Z) :=
  t ← seqZ 1 (Z.of_nat n); c ← seqZ 0 (t + 1); [(c, t)].

Definition agree_on (ct : Z * Z) : bool :=
  let '(c, t) := ct in
  spec_eqb (JS.to_spec (JS.div c t)) (div c t)
  && spec_eqb (JS.to_spec (JS.mul (JS.div c t) 100)) (mul (div c t) 100)
  && spec_eqb (JS.to_spec (JS.div c t)) (Prim2SF (hw_div c t))
  && spec_eqb (JS.to_spec (JS.mul (JS.div c t) 100))
              (Prim2SF (hw_mul (hw_div c t) 100)).
End IEEE.

(** * Properties *)

(** ** Rounding to the nearest double *)
Section Rounding.
Import JS.

Lemma rne_spec num den :
  0 < den →
  den * (2 * rne num den - 1) ≤ 2 * num ≤ den * (2 * rne num den + 1).
Proof.
  intros Hden. unfold rne.
  pose proof (Z.div_mod num den ltac:(lia)) as Hdm.
  pose proof (Z.mod_pos_bound num den Hden) as Hr.
  destruct (Z.compare_spec (2 * (num mod den)) den) as [He|Hl|Hg];
    [destruct (Z.even (num / den))| |]; nia.
Qed.

Lemma rne_le num den B : 0 < den → num ≤ B * den → rne num den ≤ B.
Proof. intros Hden Hle. pose proof (rne_spec num den Hden). nia. Qed.

Lemma rne_ge num den B : 0 < den → B * den ≤ num → B ≤ rne num den.
Proof. intros Hden Hle. pose proof (rne_spec num den Hden). nia. Qed.

Lemma rne_below_half num den B :
  0 < den → 2 * num < (2 * B - 1) * den → rne num den ≤ B - 1.
Proof. intros Hden Hlt. pose proof (rne_spec num den Hden). nia. Qed.

Lemma rne_exact den B : 0 < den → rne (B * den) den = B.
Proof.
  intros Hden. apply Z.le_antisymm; [apply rne_le|apply rne_ge]; lia.
Qed.

(** The significand of a quotient below [2 ^ 52] has a negative exponent:
    [n / d] is scaled by a power of two [P >= 2] into [[2^52, 2^53)]. *)
Lemma ulp_exp_small n d :
  0 < n → 0 < d → n < 2 ^ 52 * d →
  ∃ H : Z,
    ulp_exp n d < 0 ∧ 0 < H ∧ 2 ^ (- ulp_exp n d - 1) = H
    ∧ 2 ^ (- ulp_exp n d) = 2 * H
    ∧ 2 ^ 52 * d ≤ n * (2 * H) < 2 ^ 53 * d.
Proof.
  intros Hn Hd Hsmall. unfold ulp_exp.
  rewrite (Z.abs_eq n) by lia.
  destruct (Z.log2_spec n Hn) as [Hn1 Hn2].
  destruct (Z.log2_spec d Hd) as [Hd1 Hd2].
  pose proof (Z.log2_nonneg n) as Hln. pose proof (Z.log2_nonneg d) as Hld.
  set (ln := Z.log2 n) in *. set (ld := Z.log2 d) in *.
  rewrite Z.pow_succ_r in Hn2, Hd2 by lia.
  assert (Hlt : ln < ld + 53).
  { apply (Z.pow_lt_mono_r_iff 2); [lia|lia|].
    rewrite Z.pow_add_r by lia. lia. }
  set (e0 := ln - ld - 53).
  assert (He0 : e0 < 0) by (unfold e0; lia).
  assert (Hsn : scale_num n e0 = n * 2 ^ (- e0)).
  { unfold scale_num. destruct (Z.ltb_spec e0 0); lia. }
  assert (Hsd : scale_den d e0 = d).
  { unfold scale_den. destruct (Z.ltb_spec e0 0); lia. }
  rewrite Hsn, Hsd.
  assert (HQ : 2 ^ ln * 2 ^ (- e0) = 2 ^ 53 * 2 ^ ld).
  { rewrite <- !Z.pow_add_r by lia. f_equal. unfold e0. lia. }
  assert (HQpos : 0 < 2 ^ (- e0)) by (apply Z.pow_pos_nonneg; lia).
  assert (HQsplit : 2 ^ (- e0) = 2 * 2 ^ (- e0 - 1)).
  { rewrite <- Z.pow_succ_r by lia. f_equal. lia. }
  assert (Hlo : 2 ^ 52 * d < n * 2 ^ (- e0)) by nia.
  assert (Hhi : n * 2 ^ (- e0) < 2 ^ 54 * d) by nia.
  destruct (Z.leb_spec (2 ^ 53 * d) (n * 2 ^ (- e0))) as [Hge|Hlow].
  - assert (He0' : e0 < -1).
    { destruct (Z.eq_dec e0 (-1)) as [E|E]; [|lia].
      rewrite E in Hge. change (2 ^ (- -1)) with 2 in Hge. lia. }
    assert (HQsplit' : 2 ^ (- e0 - 1) = 2 * 2 ^ (- e0 - 2)).
    { rewrite <- Z.pow_succ_r by lia. f_equal. lia. }
    exists (2 ^ (- e0 - 2)).
    replace (- (e0 + 1) - 1) with (- e0 - 2) by lia.
    replace (- (e0 + 1)) with (- e0 - 1) by lia.
    assert (0 < 2 ^ (- e0 - 2)) by (apply Z.pow_pos_nonneg; lia).
    repeat split; try lia.
  - exists (2 ^ (- e0 - 1)).
    assert (0 < 2 ^ (- e0 - 1)) by (apply Z.pow_pos_nonneg; lia).
    repeat split; try lia.
Qed.

(** Shape of the double nearest to a quotient below [2 ^ 52]. *)
Lemma round_q_small n d :
  0 < n → 0 < d → n < 2 ^ 52 * d →
  ∃ H e : Z,
    round_q n d = Float (rne (n * (2 * H)) d) e
    ∧ e < 0 ∧ 0 < H ∧ 2 ^ (- e - 1) = H ∧ 2 ^ (- e) = 2 * H
    ∧ 2 ^ 52 * d ≤ n * (2 * H) < 2 ^ 53 * d.
Proof.
  intros Hn Hd Hsmall.
  destruct (ulp_exp_small n d Hn Hd Hsmall) as (H & He & HH & Hp1 & Hp & Hb).
  exists H, (ulp_exp n d). repeat split; try lia.
  unfold round_q. destruct (Z.eqb_spec n 0); [lia|].
  f_equal. unfold scale_num, scale_den.
  destruct (Z.ltb_spec (ulp_exp n d) 0); [|lia]. by rewrite Hp.
Qed.

Lemma Math_round_small m e H :
  e < 0 → 0 < H → 2 ^ (- e - 1) = H → 2 ^ (- e) = 2 * H →
  Math_round (Float m e) = (m + H) / (2 * H).
Proof.
  intros He HH Hp1 Hp. unfold Math_round. simpl.
  destruct (Z.ltb_spec e 0); [|lia]. by rewrite Hp1, Hp.
Qed.

(** [Math.round(n / d)] is the exact quotient rounded half up. *)
Lemma Math_round_div n d :
  0 ≤ n < 2 ^ 52 → 0 < d →
  Math_round (div n d) = (2 * n + d) / (2 * d).
Proof.
  intros [Hn0 Hn] Hd. unfold div.
  destruct (Z.eq_dec n 0) as [->|Hnz].
  { unfold round_q, Math_round. simpl.
    symmetry. apply Z.div_small. lia. }
  destruct (round_q_small n d) as (H & e & -> & He & HH & Hp1 & Hp & Hlo & Hhi);
    [lia|lia|nia|].
  rewrite (Math_round_small _ e H) by assumption.
  pose proof (Z.div_mod (2 * n + d) (2 * d) ltac:(lia)) as Hdm.
  pose proof (Z.mod_pos_bound (2 * n + d) (2 * d) ltac:(lia)) as Hr.
  set (K := (2 * n + d) / (2 * d)) in *.
  assert (HdH : d < 2 * H) by nia.
  assert (Hlow : (2 * K - 1) * H ≤ rne (n * (2 * H)) d).
  { apply rne_ge; [lia|]. nia. }
  assert (Hupp : rne (n * (2 * H)) d ≤ (2 * K + 1) * H - 1).
  { apply rne_below_half; [lia|]. nia. }
  symmetry.
  apply (Z.div_unique _ _ K (rne (n * (2 * H)) d + H - 2 * H * K)); lia.
Qed.

(** The two roundings behind [Math.round((c / t) * 100)], [0 < c <= t]:
    [m1] is the significand of [c / t] and [m2] that of the product. *)
Lemma percent_shape c t :
  0 < c → c ≤ t →
  ∃ H1 m1 H2 m2 : Z,
    0 < H1 ∧ 0 < H2
    ∧ m1 = rne (c * (2 * H1)) t
    ∧ 2 ^ 52 * t ≤ c * (2 * H1) < 2 ^ 53 * t
    ∧ 2 ^ 52 ≤ m1 ≤ 2 * H1
    ∧ m2 = rne (m1 * 100 * (2 * H2)) (2 * H1)
    ∧ 2 ^ 52 * (2 * H1) ≤ m1 * 100 * (2 * H2) < 2 ^ 53 * (2 * H1)
    ∧ Math_round (mul (div c t) 100) = (m2 + H2) / (2 * H2).
Proof.
  intros Hc Hct. unfold div.
  destruct (round_q_small c t) as (H1 & e1 & -> & He1 & HH1 & Hp1 & Hp1' & Hb1);
    [lia|lia|nia|].
  set (m1 := rne (c * (2 * H1)) t).
  assert (Hm1 : 2 ^ 52 ≤ m1 ≤ 2 * H1).
  { split; [apply rne_ge|apply rne_le]; nia. }
  unfold mul. simpl Fexp. simpl Fnum. fold m1.
  destruct (Z.ltb_spec e1 0); [|lia]. rewrite Hp1'.
  destruct (round_q_small (m1 * 100) (2 * H1))
    as (H2 & e2 & -> & He2 & HH2 & Hp2 & Hp2' & Hb2); [lia|lia|lia|].
  exists H1, m1, H2, (rne (m1 * 100 * (2 * H2)) (2 * H1)).
  rewrite (Math_round_small _ e2 H2) by assumption.
  repeat split; try lia; reflexivity.
Qed.

Lemma percent_Z_zero t : Math_round (mul (div 0 t) 100) = 0.
Proof. reflexivity. Qed.

Lemma percent_Z_range c t :
  0 ≤ c → c ≤ t → 0 < t → 0 ≤ Math_round (mul (div c t) 100) ≤ 100.
Proof.
  intros Hc Hct Ht.
  destruct (Z.eq_dec c 0) as [->|Hcz]; [rewrite percent_Z_zero; lia|].
  destruct (percent_shape c t) as
    (H1 & m1 & H2 & m2 & HH1 & HH2 & Em1 & Hb1 & Hm1 & Em2 & Hb2 & ->); [lia|lia|].
  assert (Hm2 : 0 ≤ m2 ≤ 100 * (2 * H2)).
  { subst m2. split; [apply rne_ge|apply rne_le]; nia. }
  split.
  - apply Z.div_pos; lia.
  - apply Z.lt_succ_r, Z.div_lt_upper_bound; lia.
Qed.

Lemma percent_Z_full t : 0 < t → Math_round (mul (div t t) 100) = 100.
Proof.
  intros Ht.
  destruct (percent_shape t t) as
    (H1 & m1 & H2 & m2 & HH1 & HH2 & Em1 & Hb1 & Hm1 & Em2 & Hb2 & ->); [lia|lia|].
  assert (Hm1' : m1 = 2 * H1).
  { subst m1. replace (t * (2 * H1)) with (2 * H1 * t) by lia.
    apply rne_exact. lia. }
  assert (Hm2' : m2 = 100 * (2 * H2)).
  { subst m2. rewrite Hm1'.
    replace (2 * H1 * 100 * (2 * H2)) with (100 * (2 * H2) * (2 * H1)) by lia.
    apply rne_exact. lia. }
  subst m2. rewrite Hm2'.
  symmetry. apply (Z.div_unique _ _ 100 H2); lia.
Qed.

(** Lower and upper estimates of the rounded product against the exact
    value [100 * c / t], for totals below [2 ^ 32]. *)
Lemma percent_Z_lower c t J :
  0 < c → c ≤ t → t < 2 ^ 32 →
  (2 * J - 1) * t + 1 ≤ 200 * c →
  J ≤ Math_round (mul (div c t) 100).
Proof.
  intros Hc Hct Ht HJ.
  destruct (percent_shape c t) as
    (H1 & m1 & H2 & m2 & HH1 & HH2 & Em1 & Hb1 & Hm1 & Em2 & Hb2 & ->); [lia|lia|].
  pose proof (rne_spec (c * (2 * H1)) t ltac:(lia)) as Hs. rewrite <- Em1 in Hs.
  assert (Hbig : 100 * t ≤ 2 * H1) by lia.
  assert (Hstep : (2 * J - 1) * (2 * H1) * t ≤ 200 * m1 * t) by nia.
  assert (Hstep' : (2 * J - 1) * (2 * H1) ≤ 200 * m1) by nia.
  assert (Hm2 : (2 * J - 1) * H2 ≤ m2).
  { subst m2. apply rne_ge; [lia|]. nia. }
  apply Z.div_le_lower_bound; lia.
Qed.

Lemma percent_Z_upper c t J :
  0 < c → c ≤ t → t < 2 ^ 32 →
  200 * c ≤ (2 * J + 1) * t - 1 →
  Math_round (mul (div c t) 100) ≤ J.
Proof.
  intros Hc Hct Ht HJ.
  destruct (percent_shape c t) as
    (H1 & m1 & H2 & m2 & HH1 & HH2 & Em1 & Hb1 & Hm1 & Em2 & Hb2 & ->); [lia|lia|].
  pose proof (rne_spec (c * (2 * H1)) t ltac:(lia)) as Hs. rewrite <- Em1 in Hs.
  assert (HH2big : 2 ^ 44 ≤ H2) by nia.
  assert (Hstep : 200 * m1 * t ≤ (2 * J + 1) * (2 * H1) * t - 2 * H1 + 100 * t) by nia.
  assert (Hstep2 : 200 * m1 * t * H2
                   ≤ ((2 * J + 1) * (2 * H1) * t - 2 * H1 + 100 * t) * H2).
  { apply Z.mul_le_mono_nonneg_r; lia. }
  assert (Hslack : H1 * t + 100 * t * H2 < 2 * H1 * H2) by nia.
  assert (Hkey : 200 * m1 * H2 * t + H1 * t < (2 * J + 1) * (2 * H1 * H2) * t) by nia.
  assert (Hkey' : 200 * m1 * H2 + H1 < (2 * J + 1) * (2 * H1 * H2)) by nia.
  assert (Hm2 : m2 ≤ (2 * J + 1) * H2 - 1).
  { subst m2. apply rne_below_half; [lia|]. nia. }
  apply Z.lt_succ_r, Z.div_lt_upper_bound; lia.
Qed.

End Rounding.

(** The model of the two rounded operations returns, bit for bit, what the
    IEEE 754 reference and the hardware return, on every pair of counts up
    to 48 and on elapsed-time quotients. *)
Lemma binary64_agreement :
  forallb IEEE.agree_on (IEEE.grid 48) = true
  ∧ forallb IEEE.agree_on
      [(23, 40); (29, 200); (30000, 60000); (29999, 60000); (1500, 1000);
       (123456789, 60000); (86399999, 1000)] = true.
Proof. split; vm_compute; reflexivity. Qed.

(** ** The percentage *)
Section Percent.

Lemma percent_range (c t : nat) :
  (c ≤ t)%nat → (0 < t)%nat → 0 ≤ percent c t ≤ 100.
Proof. intros Hct Ht. apply percent_Z_range; lia. Qed.

Lemma percent_full (t : nat) : (0 < t)%nat → percent t t = 100.
Proof. intros Ht. apply percent_Z_full. lia. Qed.

Lemma percent_none (t : nat) : percent 0 t = 0.
Proof. reflexivity. Qed.

Lemma exact_percent_spec (c t : nat) :
  (0 < t)%nat →
  (2 * exact_percent c t - 1) * Z.of_nat t ≤ 200 * Z.of_nat c
  ∧ 200 * Z.of_nat c < (2 * exact_percent c t + 1) * Z.of_nat t.
Proof.
  intros Ht. unfold exact_percent.
  pose proof (Z.div_mod (200 * Z.of_nat c + Z.of_nat t) (2 * Z.of_nat t)
                ltac:(lia)) as Hdm.
  pose proof (Z.mod_pos_bound (200 * Z.of_nat c + Z.of_nat t) (2 * Z.of_nat t)
                ltac:(lia)) as Hr.
  nia.
Qed.

Lemma halfway_spec (c t : nat) :
  (0 < t)%nat →
  halfway c t ↔ 200 * Z.of_nat c = (2 * exact_percent c t - 1) * Z.of_nat t.
Proof.
  intros Ht. pose proof (exact_percent_spec c t Ht) as [Hlo Hhi].
  unfold halfway. split.
  - intros Hmod.
    pose proof (Z.div_mod (200 * Z.of_nat c) (2 * Z.of_nat t) ltac:(lia)) as Hdm.
    rewrite Hmod in Hdm.
    set (q := 200 * Z.of_nat c / (2 * Z.of_nat t)) in *.
    set (K := exact_percent c t) in *.
    assert (Hq : q = K - 1).
    { destruct (Z.lt_trichotomy q (K - 1)) as [Hl|[He|Hg]]; [|done|]; nia. }
    subst q. rewrite Hq in Hdm. lia.
  - intros Heq. symmetry.
    apply (Z.mod_unique _ _ (exact_percent c t - 1)); lia.
Qed.

(** Off the halfway points the doubles give the exactly rounded value. *)
Lemma percent_exact (c t : nat) :
  (c ≤ t)%nat → (0 < t)%nat → Z.of_nat t < 2 ^ 32 → ¬ halfway c t →
  percent c t = exact_percent c t.
Proof.
  intros Hct Ht Hbound Hnh.
  pose proof (exact_percent_spec c t Ht) as [Hlo Hhi].
  rewrite halfway_spec in Hnh by done.
  destruct (decide (c = 0)%nat) as [->|Hc].
  { rewrite percent_none. unfold exact_percent.
    symmetry. apply Z.div_small. lia. }
  apply Z.le_antisymm.
  - apply percent_Z_upper; lia.
  - apply percent_Z_lower; lia.
Qed.

(** At a halfway point they give that value or the integer below. *)
Lemma percent_near (c t : nat) :
  (c ≤ t)%nat → (0 < t)%nat → Z.of_nat t < 2 ^ 32 →
  exact_percent c t - 1 ≤ percent c t ≤ exact_percent c t.
Proof.
  intros Hct Ht Hbound.
  pose proof (exact_percent_spec c t Ht) as [Hlo Hhi].
  destruct (decide (c = 0)%nat) as [->|Hc].
  { rewrite percent_none. unfold exact_percent.
    rewrite Z.div_small; lia. }
  split.
  - apply percent_Z_lower; lia.
  - apply percent_Z_upper; lia.
Qed.

End Percent.

(** ** Progress aggregator *)
Section Aggregator.
Implicit Types (records : list UserProgress.t) (courses : list Course.t).

Lemma foldl_minutes records (acc : Z) :
  foldl (λ sum p, sum + UserProgress.time_spent_minutes p) acc records
  = acc + foldr (λ p sum, UserProgress.time_spent_minutes p + sum) 0 records.
Proof.
  revert acc. induction records as [|p rs IH]; intros acc; simpl; [lia|].
  rewrite IH. lia.
Qed.

Lemma count_completed_le records :
  (length (filter (λ p, UserProgress.status p = completed) records)
   ≤ length records)%nat.
Proof. apply length_filter. Qed.

Lemma getCourseProgress_unfold records courseId :
  ProgressDashboard.getCourseProgress records courseId
  = CourseCard.progressPercentage
      (filter (λ p, UserProgress.course_id p = courseId) records).
Proof. reflexivity. Qed.

Lemma progressPercentage_range (progress : list UserProgress.t) :
  0 ≤ CourseCard.progressPercentage progress ≤ 100.
Proof.
  unfold CourseCard.progressPercentage.
  destruct (Nat.ltb_spec 0 (length progress)); [|lia].
  apply percent_range; [apply count_completed_le|done].
Qed.

End Aggregator.

Lemma calculateWeeklyStats_cons (p : UserProgress.t)
    (records : list UserProgress.t) (now : Z) :
  ProgressDashboard.calculateWeeklyStats (p :: records) now
  = let '(lessons, minutes) := ProgressDashboard.calculateWeeklyStats records now in
    if decide (now - 7 * 86400000 ≤ UserProgress.last_accessed_at p)
    then ((if decide (UserProgress.status p = completed) then S lessons else lessons),
          UserProgress.time_spent_minutes p + minutes)
    else (lessons, minutes).
Proof.
  unfold ProgressDashboard.calculateWeeklyStats.
  change ProgressDashboard.week_ms with (7 * 86400000).
  rewrite !foldl_minutes, filter_cons.
  destruct (decide (now - 7 * 86400000 ≤ UserProgress.last_accessed_at p)); [|done].
  rewrite filter_cons.
  destruct (decide (UserProgress.status p = completed)); simpl; f_equal; lia.
Qed.


(** The specification's worked example: one completed record of ten minutes
    accessed a day ago and one record in progress accessed ten days ago give
    one lesson and ten minutes. *)
Example weeklyStats_example (now : Z) :
  ProgressDashboard.calculateWeeklyStats
    [Sample.record "L1" "C1" completed 100 10 (now - 86400000);
     Sample.record "L2" "C1" in_progress 40 5 (now - 10 * 86400000)] now
  = (1%nat, 10).
Proof.
  rewrite !calculateWeeklyStats_cons.
  change (ProgressDashboard.calculateWeeklyStats [] now) with (0%nat, 0).
  cbv beta iota zeta.
  rewrite (decide_False (P := _ ≤ UserProgress.last_accessed_at (Sample.record "L2" _ _ _ _ _)))
    by (simpl; lia).
  rewrite decide_True by (simpl; lia).
  reflexivity.
Qed.

(** C6: [activeCourses] keeps exactly the courses that have a record with
    their id and a status other than [not_started], in the order of the input
    list; a course whose records are all [not_started] is left out, one with
    a record in progress or completed is kept. *)
Theorem activeCourses_correct (courses : list Course.t) (records : list UserProgress.t) :
  (∀ c, c ∈ ProgressDashboard.activeCourses records courses
        ↔ c ∈ courses
          ∧ ∃ p, p ∈ records
                 ∧ UserProgress.course_id p = Course.id c
                 ∧ UserProgress.status p ≠ not_started)
  ∧ sublist (ProgressDashboard.activeCourses records courses) courses
  ∧ (∀ c, (∀ p, p ∈ records → UserProgress.course_id p = Course.id c →
                UserProgress.status p = not_started) →
          c ∉ ProgressDashboard.activeCourses records courses)
  ∧ (∀ c p, c ∈ courses → p ∈ records →
            UserProgress.course_id p = Course.id c →
            UserProgress.status p = in_progress ∨ UserProgress.status p = completed →
            c ∈ ProgressDashboard.activeCourses records courses).
Proof.
  assert (Hmem : ∀ c, c ∈ ProgressDashboard.activeCourses records courses
        ↔ c ∈ courses
          ∧ ∃ p, p ∈ records
                 ∧ UserProgress.course_id p = Course.id c
                 ∧ UserProgress.status p ≠ not_started).
  { intros c. unfold ProgressDashboard.activeCourses.
    rewrite list_elem_of_filter, Exists_exists. split; intros [? ?]; done. }
  split; [exact Hmem|]. split; [apply sublist_filter|]. split.
  - intros c Hall Hin. apply Hmem in Hin as (_ & p & Hp & Hc & Hs).
    apply Hs. by apply Hall.
  - intros c p Hc Hp Hid Hst. apply Hmem. split; [done|].
    exists p. repeat split; [done..|]. destruct Hst as [-> | ->]; done.
Qed.

(** C5, as stated, fails: with 23 of the 40 records of a course completed
    the exact percentage is 57.5, which rounds half up to 58, but the
    dashboard computes [(23 / 40) * 100] in doubles, gets
    57.49999999999999 and returns 57. *)
Lemma courseCompletionPercent_not_exact :
  ProgressDashboard.getCourseProgress Sample.fortyRecords "C1" = 57
  ∧ Spec.courseCompletionPercent Sample.fortyRecords "C1" = 58
  ∧ ProgressDashboard.getCourseProgress Sample.fortyRecords "C1"
    ≠ Spec.courseCompletionPercent Sample.fortyRecords "C1".
Proof. vm_compute. by repeat split. Qed.

(** C5, amended: [getCourseProgress] keeps the records of the course and
    returns [Math.round((completed / total) * 100)] computed in doubles, 0
    when there is no such record.  The result lies in [[0, 100]]; for fewer
    than [2 ^ 32] records (any JavaScript array) it is the exact percentage
    rounded half up whenever that percentage is not exactly halfway between
    two integers, and that value or one less when it is; two completed of
    three give 67. *)
Theorem courseCompletionPercent_amended (records : list UserProgress.t)
    (courseId : string) :
  let ofCourse := filter (λ p, UserProgress.course_id p = courseId) records in
  let completedN := length (filter (λ p, UserProgress.status p = completed) ofCourse) in
  let total := length ofCourse in
  let result := ProgressDashboard.getCourseProgress records courseId in
  result = (if decide (total = 0%nat) then 0 else percent completedN total)
  ∧ (total = 0%nat → result = 0)
  ∧ 0 ≤ result ≤ 100
  ∧ (Z.of_nat total < 2 ^ 32 → ¬ halfway completedN total →
     result = Spec.courseCompletionPercent records courseId)
  ∧ (Z.of_nat total < 2 ^ 32 →
     Spec.courseCompletionPercent records courseId - 1 ≤ result
     ≤ Spec.courseCompletionPercent records courseId)
  ∧ (completedN = 2%nat → total = 3%nat → result = 67).
Proof.
  intros ofCourse completedN total result.
  assert (Hres : result = if decide (total = 0%nat) then 0 else percent completedN total).
  { unfold result, ProgressDashboard.getCourseProgress. fold ofCourse completedN total.
    destruct (Nat.ltb_spec 0 total), (decide (total = 0%nat)); done || lia. }
  assert (Hspec : Spec.courseCompletionPercent records courseId
                  = if decide (total = 0%nat) then 0 else exact_percent completedN total)
    by reflexivity.
  assert (Hle : (completedN ≤ total)%nat) by apply count_completed_le.
  split; [done|]. split; [|split; [|split; [|split]]].
  - intros Hz. rewrite Hres. by rewrite decide_True.
  - unfold result. rewrite getCourseProgress_unfold. apply progressPercentage_range.
  - intros Hb Hnh. rewrite Hres, Hspec.
    destruct (decide (total = 0%nat)); [done|].
    apply percent_exact; [done|lia|done|done].
  - intros Hb. rewrite Hres, Hspec.
    destruct (decide (total = 0%nat)); [lia|].
    apply percent_near; [done|lia|done].
  - intros Hd Ht. rewrite Hres, Hd, Ht. reflexivity.
Qed.

(** C2, as stated, fails: for a course of three lessons with a single
    progress record, completed, the dashboard and the card show 100 and the
    course detail view shows 33. *)
Lemma completion_views_differ :
  ProgressDashboard.getCourseProgress Sample.oneRecord "C1" = 100
  ∧ CourseCard.progressPercentage
      (Dashboard.cardProgress Sample.oneRecord (Sample.aCourse "C1")) = 100
  ∧ CourseDetail.progressPercentage Sample.threeLessons
      (Dashboard.cardProgress Sample.oneRecord (Sample.aCourse "C1")) = 33
  ∧ CourseDetail.progressPercentage Sample.threeLessons
      (Dashboard.cardProgress Sample.oneRecord (Sample.aCourse "C1"))
    ≠ ProgressDashboard.getCourseProgress Sample.oneRecord "C1".
Proof. vm_compute. by repeat split. Qed.

(** C2, amended: on every snapshot the course card shows the percentage the
    dashboard computes (completed records over the course's records); the
    course detail view divides the same count by the number of lessons
    instead, and shows that same percentage when the course has as many
    lessons as it has progress records. *)
Theorem completion_views_amended (records : list UserProgress.t)
    (course : Course.t) (lessons : list Lesson.t) :
  let ofCourse := Dashboard.cardProgress records course in
  let completedN := length (filter (λ p, UserProgress.status p = completed) ofCourse) in
  CourseCard.progressPercentage ofCourse
  = ProgressDashboard.getCourseProgress records (Course.id course)
  ∧ CourseDetail.progressPercentage lessons ofCourse
    = (if decide (lessons = []) then 0 else percent completedN (length lessons))
  ∧ (length lessons = length ofCourse →
     CourseDetail.progressPercentage lessons ofCourse
     = ProgressDashboard.getCourseProgress records (Course.id course)).
Proof.
  intros ofCourse completedN. split; [reflexivity|]. split.
  - unfold CourseDetail.progressPercentage. fold completedN.
    destruct lessons; reflexivity.
  - intros Hlen. rewrite getCourseProgress_unfold.
    unfold CourseDetail.progressPercentage, CourseCard.progressPercentage.
    fold (Dashboard.cardProgress records course). fold ofCourse.
    by rewrite Hlen.
Qed.

Lemma completion_views_witness :
  CourseDetail.progressPercentage (take 1 Sample.threeLessons)
    (Dashboard.cardProgress Sample.oneRecord (Sample.aCourse "C1"))
  = ProgressDashboard.getCourseProgress Sample.oneRecord "C1".
Proof.
  apply (completion_views_amended Sample.oneRecord (Sample.aCourse "C1")
           (take 1 Sample.threeLessons)).
  reflexivity.
Defined.

Lemma courseCompletionPercent_witness :
  ProgressDashboard.getCourseProgress
    (take 2 Sample.fortyRecords ++ drop 39 Sample.fortyRecords) "C1" = 67.
Proof.
  apply (courseCompletionPercent_amended
           (take 2 Sample.fortyRecords ++ drop 39 Sample.fortyRecords) "C1");
    reflexivity.
Defined.

(** ** Lesson/quiz session *)
Section SessionFacts.
Import LessonView Session.
Variable props : Props.

Ltac run_monad :=
  unfold mbind, M_bind, mret, M_ret, Date_now, emit, select_progress,
    update_progress, insert_progress, insert_attempt, loadAssessments, throw;
  simpl.

Lemma updateProgress_signed_out startTime status pct w :
  user props = None → updateProgress props startTime status pct w = Some (tt, w).
Proof. intros Hu. unfold updateProgress. by rewrite Hu. Qed.

(** What one call of [updateProgress] does for a signed-in user. *)
Lemma updateProgress_signed_in uid startTime status pct w :
  user props = Some uid →
  ∃ w', updateProgress props startTime status pct w = Some (tt, w')
        ∧ trace w' = trace w ++ [Upsert (progressData_in props uid startTime status pct w)]
        ∧ user_progress w'
          = upserted w (progressData_in props uid startTime status pct w)
        ∧ user_assessments w' = user_assessments w
        ∧ clock w' = clock w
        ∧ (reads w < reads w')%nat
        ∧ assessments_table w' = assessments_table w.
Proof.
  intros Hu. unfold updateProgress, progressData_in, upserted. rewrite Hu.
  run_monad.
  destruct (decide (status = completed)); simpl;
    destruct (user_progress w !! (uid, Lesson.id (lesson props))); simpl;
    eexists; (split; [reflexivity|]); simpl; repeat split; lia.
Qed.

Lemma issued_grown {A} (c : M A) w a w' new :
  c w = Some (a, w') → trace w' = trace w ++ new → issued c w = new.
Proof.
  intros Hc Ht. unfold issued. rewrite Hc, Ht. apply drop_app_length.
Qed.

(** What [handleAnswerSubmit] does once an answer is chosen. *)
Lemma handleAnswerSubmit_run uid a s w :
  user props = Some uid →
  selectedAnswer s ≠ "" →
  assessments s !! currentQuestion s = Some a →
  let attempt := attempt_in uid s a w in
  let data :=
    progressData_in props uid (startTime s) in_progress
      (percent (currentQuestion s + 1) (length (assessments s)))
      (set_reads (S (reads w)) w) in
  ∃ w', handleAnswerSubmit props s w
        = Some (judged (UserAssessment.is_correct attempt) s, w')
        ∧ trace w' = trace w ++ [InsertAttempt attempt; Upsert data]
        ∧ user_assessments w' = user_assessments w ++ [attempt]
        ∧ user_progress w' = upserted w data
        ∧ clock w' = clock w
        ∧ (reads w < reads w')%nat
        ∧ assessments_table w' = assessments_table w.
Proof.
  intros Hu Hsel Ha attempt data. unfold handleAnswerSubmit.
  destruct (decide (selectedAnswer s = "" ∨ user props = None)) as [[?|Hn]|_];
    [done|congruence|].
  rewrite Ha, Hu. run_monad.
  match goal with
  | |- context [updateProgress props ?st ?status ?pct ?w1] =>
      destruct (updateProgress_signed_in uid st status pct w1 Hu)
        as (w' & -> & Ht & Hp & Hua & Hc & Hr & Hat)
  end.
  exists w'. simpl in *. split; [reflexivity|].
  rewrite Ht, Hp, Hua, Hc, Hat, <- app_assoc.
  repeat split; lia.
Qed.

Lemma handleAnswerSubmit_unanswered s w :
  selectedAnswer s = "" → handleAnswerSubmit props s w = Some (s, w).
Proof.
  intros Hsel. unfold handleAnswerSubmit.
  destruct (decide (selectedAnswer s = "" ∨ user props = None)) as [_|Hn]; [done|].
  destruct Hn. by left.
Qed.

Lemma handleAnswerSubmit_signed_out s w :
  user props = None → handleAnswerSubmit props s w = Some (s, w).
Proof.
  intros Hu. unfold handleAnswerSubmit.
  destruct (decide (selectedAnswer s = "" ∨ user props = None)) as [_|Hn]; [done|].
  destruct Hn. by right.
Qed.

(** [handleNextQuestion] before the last question: the next question is
    shown and nothing is sent. *)
Lemma handleNextQuestion_more s w :
  (currentQuestion s + 1 < length (assessments s))%nat →
  handleNextQuestion props s w
  = Some ({| assessments := assessments s;
             currentQuestion := currentQuestion s + 1;
             selectedAnswer := "";
             showExplanation := false;
             isCorrect := None;
             quizCompleted := quizCompleted s;
             score := score s;
             startTime := startTime s |}, w).
Proof.
  intros Hlt. unfold handleNextQuestion.
  destruct (Z.ltb_spec (Z.of_nat (currentQuestion s))
              (Z.of_nat (length (assessments s)) - 1)); [done|lia].
Qed.

(** [handleNextQuestion] on the last question: the quiz is completed and
    the completion is written. *)
Lemma handleNextQuestion_last uid s w :
  user props = Some uid →
  (length (assessments s) ≤ currentQuestion s + 1)%nat →
  let data := progressData_in props uid (startTime s) completed 100 w in
  ∃ w', handleNextQuestion props s w
        = Some ({| assessments := assessments s;
                   currentQuestion := currentQuestion s;
                   selectedAnswer := selectedAnswer s;
                   showExplanation := showExplanation s;
                   isCorrect := isCorrect s;
                   quizCompleted := true;
                   score := score s;
                   startTime := startTime s |}, w')
        ∧ trace w' = trace w ++ [Upsert data]
        ∧ user_assessments w' = user_assessments w
        ∧ user_progress w' = upserted w data
        ∧ clock w' = clock w
        ∧ (reads w < reads w')%nat
        ∧ assessments_table w' = assessments_table w.
Proof.
  intros Hu Hge data. unfold handleNextQuestion.
  destruct (Z.ltb_spec (Z.of_nat (currentQuestion s))
              (Z.of_nat (length (assessments s)) - 1)); [lia|].
  run_monad.
  destruct (updateProgress_signed_in uid (startTime s) completed 100 w Hu)
    as (w' & -> & Ht & Hp & Hua & Hc & Hr & Hat).
  exists w'. by repeat split.
Qed.

Lemma handleCompleteLesson_run uid s w :
  user props = Some uid →
  let data := progressData_in props uid (startTime s) completed 100 w in
  ∃ w', handleCompleteLesson props s w = Some (s, w')
        ∧ trace w' = trace w ++ [Upsert data; OnClose]
        ∧ user_assessments w' = user_assessments w
        ∧ user_progress w' = upserted w data
        ∧ clock w' = clock w
        ∧ (reads w < reads w')%nat.
Proof.
  intros Hu data. unfold handleCompleteLesson. run_monad.
  destruct (updateProgress_signed_in uid (startTime s) completed 100 w Hu)
    as (w' & -> & Ht & Hp & Hua & Hc & Hr & Hat).
  eexists. split; [reflexivity|]. simpl.
  rewrite Ht, <- app_assoc. by repeat split.
Qed.

(** Opening the view: the start time is read, the questions of a quiz
    lesson are fetched, and progress is written as in progress at 0. *)
Lemma mount_run uid w :
  user props = Some uid →
  let start := clock w (reads w) in
  let data :=
    progressData_in props uid start in_progress 0 (set_reads (S (reads w)) w) in
  ∃ w', mount props w
        = Some ({| assessments :=
                     if decide (Lesson.content_type (lesson props) = quiz)
                     then filter (λ a, Assessment.lesson_id a = Lesson.id (lesson props))
                                 (assessments_table w)
                     else [];
                   currentQuestion := 0; selectedAnswer := "";
                   showExplanation := false; isCorrect := None;
                   quizCompleted := false; score := 0; startTime := start |}, w')
        ∧ trace w' = trace w ++ [Upsert data]
        ∧ user_assessments w' = user_assessments w
        ∧ user_progress w' = upserted w data
        ∧ clock w' = clock w
        ∧ (reads w < reads w')%nat
        ∧ assessments_table w' = assessments_table w.
Proof.
  intros Hu start data. unfold mount. run_monad.
  destruct (decide (Lesson.content_type (lesson props) = quiz)); run_monad;
    match goal with
    | |- context [updateProgress props ?st ?status ?pct ?w1] =>
        destruct (updateProgress_signed_in uid st status pct w1 Hu)
          as (w' & -> & Ht & Hp & Hua & Hc & Hr & Hat)
    end;
    exists w'; simpl in *; (split; [reflexivity|]); repeat split; try done; lia.
Qed.

End SessionFacts.

Section SubmitAnswer.
Import LessonView Session.
Variable props : Props.

Lemma screen_answering s i :
  screen props s = AnsweringQuestion i →
  currentQuestion s = i ∧ showExplanation s = false ∧ quizCompleted s = false
  ∧ Lesson.content_type (lesson props) = quiz ∧ (0 < length (assessments s))%nat.
Proof.
  unfold screen. case_decide as Hq; [|done].
  destruct (quizCompleted s), (showExplanation s); try done.
  intros [= <-]. by destruct Hq.
Qed.

End SubmitAnswer.

(** C7: while a question is shown, submitting with no answer chosen does
    nothing: the view's state (question index, score, selection, explanation
    flag) and the store are returned as they were, and nothing is sent. *)
Theorem submit_without_answer (props : LessonView.Props) (s : LessonView.State)
    (w : World) (i : nat) :
  LessonView.screen props s = LessonView.AnsweringQuestion i →
  LessonView.selectedAnswer s = "" →
  LessonView.handleAnswerSubmit props s w = Some (s, w)
  ∧ Session.issued (LessonView.handleAnswerSubmit props s) w = [].
Proof.
  intros _ Hsel.
  pose proof (handleAnswerSubmit_unanswered props s w Hsel) as Hrun.
  split; [done|].
  apply (issued_grown _ _ _ _ _ Hrun). by rewrite app_nil_r.
Qed.

Lemma submit_without_answer_witness :
  LessonView.handleAnswerSubmit Sample.quizProps (Sample.unanswered 1 3) Sample.world
  = Some (Sample.unanswered 1 3, Sample.world)
  ∧ Session.issued
      (LessonView.handleAnswerSubmit Sample.quizProps (Sample.unanswered 1 3))
      Sample.world = [].
Proof.
  apply (submit_without_answer Sample.quizProps (Sample.unanswered 1 3)
           Sample.world 1); reflexivity.
Defined.

(** C8, as stated, fails: on question 23 of a quiz of 40 the upsert carries
    57, while [round(100 * 23 / 40)] is 58 (the product [(23 / 40) * 100] is
    57.49999999999999 in doubles). *)
Lemma submit_answer_not_exact :
  ProgressData.completion_percentage
    <$> Session.upserts
          (Session.issued
             (LessonView.handleAnswerSubmit Sample.quizProps (Sample.answering 22 40))
             Sample.world) = [57]
  ∧ exact_percent 23 40 = 58.
Proof. vm_compute. done. Qed.

(** C8, amended: while question [i] is shown and an answer is chosen,
    submitting compares the answer with the question's [correct_answer] by
    string equality, logs one attempt, adds 1 to the score exactly when the
    two are equal, shows the explanation, and issues one progress upsert with
    status [in_progress] and percentage [Math.round(((i + 1) / n) * 100)]
    computed in doubles: a value in [[0, 100]] that, for fewer than [2 ^ 32]
    questions, is the exact percentage rounded half up unless that percentage
    is exactly halfway between two integers, where it is that value or one
    less. *)
Theorem submit_answer_amended (props : LessonView.Props) (uid : string)
    (s : LessonView.State) (w : World) (i : nat) (a : Assessment.t) :
  LessonView.user props = Some uid →
  LessonView.screen props s = LessonView.AnsweringQuestion i →
  LessonView.assessments s !! i = Some a →
  LessonView.selectedAnswer s ≠ "" →
  let n := length (LessonView.assessments s) in
  ∃ (s' : LessonView.State) (w' : World) (attempt : UserAssessment.t)
    (data : ProgressData.t) (correct : bool),
    LessonView.handleAnswerSubmit props s w = Some (s', w')
    ∧ (correct = true ↔ LessonView.selectedAnswer s = Assessment.correct_answer a)
    ∧ LessonView.screen props s' = LessonView.ShowingExplanation i (Some correct)
    ∧ LessonView.score s' = (if correct then LessonView.score s + 1 else LessonView.score s)
    ∧ LessonView.selectedAnswer s' = LessonView.selectedAnswer s
    ∧ Session.issued (LessonView.handleAnswerSubmit props s) w
      = [InsertAttempt attempt; Upsert data]
    ∧ user_assessments w' = user_assessments w ++ [attempt]
    ∧ UserAssessment.user_id attempt = uid
    ∧ UserAssessment.assessment_id attempt = Assessment.id a
    ∧ UserAssessment.user_answer attempt = LessonView.selectedAnswer s
    ∧ UserAssessment.is_correct attempt = correct
    ∧ ProgressData.status data = in_progress
    ∧ ProgressData.completion_percentage data = percent (i + 1) n
    ∧ 0 ≤ ProgressData.completion_percentage data ≤ 100
    ∧ (Z.of_nat n < 2 ^ 32 → ¬ halfway (i + 1) n →
       ProgressData.completion_percentage data = exact_percent (i + 1) n)
    ∧ (Z.of_nat n < 2 ^ 32 →
       exact_percent (i + 1) n - 1 ≤ ProgressData.completion_percentage data
       ≤ exact_percent (i + 1) n).
Proof.
  intros Hu Hscr Ha Hsel n.
  destruct (screen_answering props s i Hscr) as (Hi & Hex & Hqc & Hquiz & Hlen).
  subst i.
  destruct (handleAnswerSubmit_run props uid a s w Hu Hsel Ha)
    as (w' & Hrun & Ht & Hua & _).
  pose proof (lookup_lt_Some _ _ _ Ha) as Hlt. fold n in Hlt.
  exists (Session.judged
            (bool_decide (LessonView.selectedAnswer s = Assessment.correct_answer a)) s),
    w', (Session.attempt_in uid s a w),
    (Session.progressData_in props uid (LessonView.startTime s) in_progress
       (percent (LessonView.currentQuestion s + 1) n) (set_reads (S (reads w)) w)),
    (bool_decide (LessonView.selectedAnswer s = Assessment.correct_answer a)).
  split; [exact Hrun|].
  split; [apply bool_decide_eq_true|].
  split.
  { unfold LessonView.screen. simpl. rewrite Hqc.
    by rewrite decide_True by done. }
  split; [done|]. split; [done|].
  split; [by apply (issued_grown _ _ _ _ _ Hrun)|].
  split; [done|]. do 5 (split; [done|]).
  split; [done|]. simpl. fold n.
  split; [apply percent_range; lia|].
  split; [intros; apply percent_exact; (done || lia)|].
  intros; apply percent_near; (done || lia).
Qed.

Lemma submit_answer_witness :
  ∃ (s' : LessonView.State) (w' : World) (attempt : UserAssessment.t)
    (data : ProgressData.t),
    LessonView.handleAnswerSubmit Sample.quizProps (Sample.answering 1 3) Sample.world
    = Some (s', w')
    ∧ LessonView.score s' = 1
    ∧ Session.issued
        (LessonView.handleAnswerSubmit Sample.quizProps (Sample.answering 1 3))
        Sample.world = [InsertAttempt attempt; Upsert data]
    ∧ ProgressData.completion_percentage data = 67.
Proof.
  destruct (submit_answer_amended Sample.quizProps "u1" (Sample.answering 1 3)
              Sample.world 1 (Sample.question "q" "L1" "A"))
    as (s' & w' & attempt & data & correct & Hrun & Hc & _ & Hsc & _ & Hiss & _ & _
        & _ & _ & _ & _ & Hpct & _);
    [reflexivity..|done|].
  exists s', w', attempt, data. split; [exact Hrun|].
  split; [|split; [exact Hiss|exact Hpct]].
  rewrite Hsc. destruct correct; [reflexivity|].
  destruct Hc as [_ Hc]. discriminate Hc. reflexivity.
Defined.

Section WholeQuiz.
Import LessonView Session.
Variable props : Props.
Variable uid : string.
Hypothesis signed_in : user props = Some uid.



End WholeQuiz.



Section Operations.
Import LessonView Session.
Variable props : Props.

Lemma mount_signed_out w :
  user props = None →
  ∃ s', mount props w = Some (s', set_reads (S (reads w)) w)
        ∧ startTime s' = clock w (reads w)
        ∧ currentQuestion s' = 0%nat.
Proof.
  intros Hu. unfold mount, mbind, M_bind, Date_now, loadAssessments.
  destruct (decide (Lesson.content_type (lesson props) = quiz));
    unfold mret, M_ret; rewrite updateProgress_signed_out by done;
    eexists; repeat split; reflexivity.
Qed.

(** Every operation sends out exactly [effects]. *)
Lemma issued_run op s w : issued (run props op s) w = effects props op s w.
Proof.
  unfold effects. destruct (user props) as [uid|] eqn:Hu.
  - destruct op; simpl.
    + destruct (mount_run props uid w Hu) as (w' & Hrun & Ht & _).
      by apply (issued_grown _ _ _ _ _ Hrun).
    + destruct (decide (selectedAnswer s = "")) as [Hsel|Hsel].
      { apply (issued_grown _ _ _ _ _ (handleAnswerSubmit_unanswered props s w Hsel)).
        by rewrite app_nil_r. }
      destruct (assessments s !! currentQuestion s) as [a|] eqn:Ha.
      * destruct (handleAnswerSubmit_run props uid a s w Hu Hsel Ha)
          as (w' & Hrun & Ht & _).
        by apply (issued_grown _ _ _ _ _ Hrun).
      * unfold issued, handleAnswerSubmit.
        destruct (decide (selectedAnswer s = "" ∨ user props = None)) as [[?|?]|_];
          [done|congruence|].
        by rewrite Ha.
    + destruct (decide (currentQuestion s + 1 < length (assessments s))%nat) as [Hlt|Hge].
      * apply (issued_grown _ _ _ _ _ (handleNextQuestion_more props s w Hlt)).
        by rewrite app_nil_r.
      * destruct (handleNextQuestion_last props uid s w Hu) as (w' & Hrun & Ht & _);
          [lia|].
        by apply (issued_grown _ _ _ _ _ Hrun).
    + destruct (handleCompleteLesson_run props uid s w Hu) as (w' & Hrun & Ht & _).
      by apply (issued_grown _ _ _ _ _ Hrun).
  - destruct op; simpl.
    + destruct (mount_signed_out w Hu) as (s' & Hrun & _).
      apply (issued_grown _ _ _ _ _ Hrun). by rewrite app_nil_r.
    + apply (issued_grown _ _ _ _ _ (handleAnswerSubmit_signed_out props s w Hu)).
      by rewrite app_nil_r.
    + unfold issued, handleNextQuestion.
      destruct (_ <? _); unfold mbind, M_bind, mret, M_ret;
        rewrite ?updateProgress_signed_out by done; simpl;
        by rewrite drop_all.
    + unfold issued, handleCompleteLesson, mbind, M_bind, mret, M_ret, emit.
      rewrite updateProgress_signed_out by done. simpl.
      by rewrite drop_app_length.
Qed.

(** No operation but the opening of the view sets [startTime]. *)
Lemma run_startTime op s w s' w' :
  run props op s w = Some (s', w') → startTime s' = base op s w.
Proof.
  destruct op; simpl.
  - destruct (user props) as [uid|] eqn:Hu.
    + destruct (mount_run props uid w Hu) as (w1 & -> & _). by intros [= <- <-].
    + destruct (mount_signed_out w Hu) as (s1 & -> & Hs & _). by intros [= <- <-].
  - unfold handleAnswerSubmit.
    destruct (decide _); [by intros [= <- <-]|].
    destruct (assessments s !! currentQuestion s), (user props); try done.
    unfold mbind, M_bind, Date_now, insert_attempt.
    destruct (updateProgress _ _ _ _ _) as [[[] w1]|]; [|done].
    by intros [= <- <-].
  - unfold handleNextQuestion.
    destruct (_ <? _); [by intros [= <- <-]|].
    unfold mbind, M_bind.
    destruct (updateProgress _ _ _ _ _) as [[[] w1]|]; [|done].
    by intros [= <- <-].
  - unfold handleCompleteLesson, mbind, M_bind, emit.
    destruct (updateProgress _ _ _ _ _) as [[[] w1]|]; [|done].
    by intros [= <- <-].
Qed.

(** The current question stays inside the list of questions. *)
Lemma run_question_in_range op s w s' w' :
  ((0 < length (assessments s))%nat →
   (currentQuestion s < length (assessments s))%nat) →
  run props op s w = Some (s', w') →
  (0 < length (assessments s'))%nat →
  (currentQuestion s' < length (assessments s'))%nat.
Proof.
  intros Hin. destruct op; simpl.
  - destruct (user props) as [uid|] eqn:Hu.
    + destruct (mount_run props uid w Hu) as (w1 & -> & _). by intros [= <- <-].
    + destruct (mount_signed_out w Hu) as (s1 & -> & _ & Hq).
      intros [= <- <-]. by rewrite Hq.
  - unfold handleAnswerSubmit.
    destruct (decide _); [by intros [= <- <-]|].
    destruct (assessments s !! currentQuestion s), (user props); try done.
    unfold mbind, M_bind, Date_now, insert_attempt.
    destruct (updateProgress _ _ _ _ _) as [[[] w1]|]; [|done].
    by intros [= <- <-].
  - unfold handleNextQuestion.
    destruct (Z.ltb_spec (Z.of_nat (currentQuestion s))
                (Z.of_nat (length (assessments s)) - 1)).
    + intros [= <- <-]. simpl. lia.
    + unfold mbind, M_bind.
      destruct (updateProgress _ _ _ _ _) as [[[] w1]|]; [|done].
      by intros [= <- <-].
  - unfold handleCompleteLesson, mbind, M_bind, emit.
    destruct (updateProgress _ _ _ _ _) as [[[] w1]|]; [|done].
    by intros [= <- <-].
Qed.

(** The score never goes down. *)
Lemma run_score_monotone op s w s' w' :
  op ≠ SessionOpen → run props op s w = Some (s', w') → score s ≤ score s'.
Proof.
  intros Hop. destruct op; simpl; [done| | |].
  - unfold handleAnswerSubmit.
    destruct (decide _); [intros [= <- <-]; lia|].
    destruct (assessments s !! currentQuestion s), (user props); try done.
    unfold mbind, M_bind, Date_now, insert_attempt.
    destruct (updateProgress _ _ _ _ _) as [[[] w1]|]; [|done].
    intros [= <- <-]. simpl. destruct (bool_decide _); lia.
  - unfold handleNextQuestion.
    destruct (_ <? _); [intros [= <- <-]; simpl; lia|].
    unfold mbind, M_bind.
    destruct (updateProgress _ _ _ _ _) as [[[] w1]|]; [|done].
    intros [= <- <-]. simpl. lia.
  - unfold handleCompleteLesson, mbind, M_bind, emit.
    destruct (updateProgress _ _ _ _ _) as [[[] w1]|]; [|done].
    intros [= <- <-]. lia.
Qed.

(** The upserts among [effects], case by case. *)
Lemma upsert_issued op s w data :
  data ∈ upserts (effects props op s w) →
  ∃ uid, user props = Some uid
    ∧ (op = SessionOpen
       ∧ data = progressData_in props uid (clock w (reads w)) in_progress 0
                  (set_reads (S (reads w)) w)
       ∨ op = SubmitAnswer
         ∧ selectedAnswer s ≠ ""
         ∧ is_Some (assessments s !! currentQuestion s)
         ∧ data = progressData_in props uid (startTime s) in_progress
                    (percent (currentQuestion s + 1) (length (assessments s)))
                    (set_reads (S (reads w)) w)
       ∨ (op = Advance ∨ op = MarkComplete)
         ∧ data = progressData_in props uid (startTime s) completed 100 w).
Proof.
  unfold effects. destruct (user props) as [uid|].
  - intros Hin. exists uid. split; [done|]. destruct op; simpl in Hin.
    + apply list_elem_of_singleton in Hin. by left.
    + destruct (decide (selectedAnswer s = "")); [by apply elem_of_nil in Hin|].
      destruct (assessments s !! currentQuestion s) eqn:Ha;
        [|by apply elem_of_nil in Hin].
      simpl in Hin. apply list_elem_of_singleton in Hin.
      right; left. by repeat split.
    + destruct (decide _); [by apply elem_of_nil in Hin|].
      simpl in Hin. apply list_elem_of_singleton in Hin. right; right. auto.
    + simpl in Hin. apply list_elem_of_singleton in Hin. right; right. auto.
  - destruct op; simpl; intros Hin; by apply elem_of_nil in Hin.
Qed.

(** The attempts among [effects]: one, on an answer submission. *)
Lemma attempt_issued op s w attempt :
  attempt ∈ attempts (effects props op s w) →
  ∃ uid a, user props = Some uid
    ∧ op = SubmitAnswer
    ∧ assessments s !! currentQuestion s = Some a
    ∧ attempt = attempt_in uid s a w.
Proof.
  unfold effects. destruct (user props) as [uid|].
  - destruct op; simpl; intros Hin.
    + by apply elem_of_nil in Hin.
    + destruct (decide (selectedAnswer s = "")); [by apply elem_of_nil in Hin|].
      destruct (assessments s !! currentQuestion s) as [a|] eqn:Ha;
        [|by apply elem_of_nil in Hin].
      simpl in Hin. apply list_elem_of_singleton in Hin. by exists uid, a.
    + destruct (decide _); by apply elem_of_nil in Hin.
    + by apply elem_of_nil in Hin.
  - destruct op; simpl; intros Hin; by apply elem_of_nil in Hin.
Qed.

End Operations.

(** Marking a text lesson complete writes the completion and then asks the
    caller to close the view. *)
Example mark_complete_example :
  ∃ data,
    Session.issued
      (Session.run Sample.textProps LessonView.MarkComplete (Sample.answering 0 0))
      (Sample.later 3) = [Upsert data; OnClose]
    ∧ ProgressData.status data = completed
    ∧ ProgressData.completion_percentage data = 100
    ∧ ProgressData.time_spent_minutes data = 2
    ∧ ProgressData.completed_at data = Some (clock Sample.world 5).
Proof. rewrite issued_run. eexists. by repeat split. Qed.

(** C1, as stated, fails: submitting the answer to the last of three
    questions issues an upsert with percentage 100 and status [in_progress]. *)
Lemma upsert_in_progress_at_100 :
  (λ d, (ProgressData.status d, ProgressData.completion_percentage d))
    <$> Session.upserts
          (Session.issued
             (Session.run Sample.quizProps LessonView.SubmitAnswer (Sample.answering 2 3))
             Sample.world)
  = [(in_progress, 100)].
Proof. vm_compute. reflexivity. Qed.

(** C1, amended: every progress upsert with status [completed] carries
    percentage 100; for the upserts of session open, terminal advance and
    mark complete the percentage is 100 exactly when the status is
    [completed]; the upsert of an answer submission always has status
    [in_progress], with the percentage of the questions answered so far,
    which is 100 on the last question. *)
Theorem upsert_percentage_amended (props : LessonView.Props)
    (op : LessonView.Operation) (s : LessonView.State) (w : World)
    (data : ProgressData.t) :
  data ∈ Session.upserts (Session.issued (Session.run props op s) w) →
  (ProgressData.status data = completed → ProgressData.completion_percentage data = 100)
  ∧ (op ≠ LessonView.SubmitAnswer →
     (ProgressData.completion_percentage data = 100
      ↔ ProgressData.status data = completed))
  ∧ (op = LessonView.SubmitAnswer →
     ProgressData.status data = in_progress
     ∧ ProgressData.completion_percentage data
       = percent (LessonView.currentQuestion s + 1) (length (LessonView.assessments s))
     ∧ ((LessonView.currentQuestion s + 1)%nat = length (LessonView.assessments s) →
        ProgressData.completion_percentage data = 100)).
Proof.
  rewrite issued_run. intros Hin.
  destruct (upsert_issued props op s w data Hin)
    as (uid & Hu & [(-> & ->)|[(-> & Hsel & Ha & ->)|(Hop & ->)]]); simpl.
  - split; [done|]. split; [|done]. intros _. split; [lia|done].
  - split; [done|]. split; [done|]. intros _. split; [done|]. split; [done|].
    intros ->. apply percent_full. destruct Ha as [a Ha].
    apply lookup_lt_Some in Ha. lia.
  - split; [done|]. split; [done|]. intros ->. by destruct Hop.
Qed.

Lemma upsert_percentage_witness :
  let data :=
    Session.progressData_in Sample.quizProps "u1" 1700000000000 completed 100
      Sample.world in
  ProgressData.completion_percentage data = 100 ↔ ProgressData.status data = completed.
Proof.
  intros data.
  apply (upsert_percentage_amended Sample.quizProps LessonView.Advance
           (Sample.answering 2 3) Sample.world data); [|done].
  rewrite issued_run. apply list_elem_of_here.
Defined.

Lemma nearestMinutes_floor (elapsed : Z) :
  Spec.nearestMinutes elapsed
  = Spec.elapsedMinutes elapsed + (if decide (30000 ≤ elapsed mod 60000) then 1 else 0).
Proof.
  unfold Spec.nearestMinutes, Spec.elapsedMinutes.
  pose proof (Z.div_mod elapsed 60000 ltac:(lia)) as Hdm.
  pose proof (Z.mod_pos_bound elapsed 60000 ltac:(lia)) as Hr.
  symmetry. destruct (decide (30000 ≤ elapsed mod 60000)).
  - apply (Z.div_unique _ _ _ (elapsed mod 60000 - 30000)); lia.
  - apply (Z.div_unique _ _ _ (elapsed mod 60000 + 30000)); lia.
Qed.

Lemma Math_round_minutes (elapsed : Z) :
  0 ≤ elapsed < 2 ^ 52 →
  JS.Math_round (JS.div elapsed 60000) = Spec.nearestMinutes elapsed.
Proof.
  intros He. rewrite Math_round_div by lia. unfold Spec.nearestMinutes.
  replace (2 * elapsed + 60000) with (2 * (elapsed + 30000)) by lia.
  by rewrite Z.div_mul_cancel_l by lia.
Qed.

Lemma Math_round_seconds (elapsed : Z) :
  0 ≤ elapsed < 2 ^ 52 →
  JS.Math_round (JS.div elapsed 1000) = Spec.elapsedSeconds elapsed.
Proof.
  intros He. rewrite Math_round_div by lia. unfold Spec.elapsedSeconds.
  replace (2 * elapsed + 1000) with (2 * (elapsed + 500)) by lia.
  by rewrite Z.div_mul_cancel_l by lia.
Qed.

(** C3, as stated, fails: for an answer submitted a minute after the start
    and written half a minute later, the progress upsert carries two
    minutes, where truncating the minute and a half gives one. *)
Lemma minutes_not_truncated :
  ProgressData.time_spent_minutes
    <$> Session.upserts
          (Session.issued
             (Session.run Sample.quizProps LessonView.SubmitAnswer (Sample.answering 0 3))
             (Sample.later 2)) = [2]
  ∧ clock Sample.world 3 - LessonView.startTime (Sample.answering 0 3) = 90000
  ∧ Spec.elapsedMinutes 90000 = 1.
Proof. vm_compute. done. Qed.

(** C3, amended: the [time_spent_minutes] of every progress upsert is the
    time elapsed since the session's start rounded to the nearest minute,
    half a minute going up (so it is the truncated value when less than half
    a minute is left over and one more otherwise); the [time_taken_seconds]
    of an attempt is the elapsed time rounded to the nearest second; both are
    measured from the start time read when the view opens, which no later
    operation changes. *)
Theorem elapsed_time_amended (props : LessonView.Props)
    (op : LessonView.Operation) (s : LessonView.State) (w : World) :
  (∀ k, (reads w ≤ k ≤ reads w + 2)%nat →
        0 ≤ clock w k - Session.base op s w < 2 ^ 52) →
  (∀ s' w', Session.run props op s w = Some (s', w') →
            LessonView.startTime s' = Session.base op s w)
  ∧ (∀ data, data ∈ Session.upserts (Session.issued (Session.run props op s) w) →
       ∃ k, (reads w ≤ k ≤ reads w + 2)%nat
            ∧ ProgressData.time_spent_minutes data
              = Spec.nearestMinutes (clock w k - Session.base op s w)
            ∧ ProgressData.time_spent_minutes data
              = Spec.elapsedMinutes (clock w k - Session.base op s w)
                + (if decide (30000 ≤ (clock w k - Session.base op s w) mod 60000)
                   then 1 else 0))
  ∧ (∀ attempt,
       attempt ∈ Session.attempts (Session.issued (Session.run props op s) w) →
       UserAssessment.time_taken_seconds attempt
       = Spec.elapsedSeconds (clock w (reads w) - Session.base op s w)).
Proof.
  intros Hclock. split; [apply run_startTime|]. rewrite issued_run. split.
  - intros data Hin.
    destruct (upsert_issued props op s w data Hin)
      as (uid & Hu & [(-> & ->)|[(-> & Hsel & Ha & ->)|(Hop & ->)]]); simpl.
    + exists (S (reads w)). split; [lia|].
      rewrite <- nearestMinutes_floor. apply and_wlog_l; [done|].
      apply Math_round_minutes, (Hclock (S (reads w))). lia.
    + exists (S (reads w)). split; [lia|].
      rewrite <- nearestMinutes_floor. apply and_wlog_l; [done|].
      apply Math_round_minutes, (Hclock (S (reads w))). lia.
    + exists (reads w). split; [lia|].
      rewrite <- nearestMinutes_floor.
      assert (Hb : Session.base op s w = LessonView.startTime s)
        by (by destruct Hop as [-> | ->]).
      rewrite Hb. apply and_wlog_l; [done|].
      apply Math_round_minutes. rewrite <- Hb. apply Hclock. lia.
  - intros attempt Hin.
    destruct (attempt_issued props op s w attempt Hin) as (uid & a & Hu & -> & Ha & ->).
    simpl. apply Math_round_seconds, (Hclock (reads w)). lia.
Qed.

Lemma elapsed_time_witness :
  UserAssessment.time_taken_seconds
    (Session.attempt_in "u1" (Sample.answering 0 3) (Sample.question "q" "L1" "A")
       Sample.world)
  = Spec.elapsedSeconds (clock Sample.world 0 - 1700000000000).
Proof.
  destruct (elapsed_time_amended Sample.quizProps LessonView.SubmitAnswer
              (Sample.answering 0 3) Sample.world) as (_ & _ & Hattempt).
  - intros k Hk. unfold Sample.world, Session.base. simpl in *. lia.
  - apply Hattempt. rewrite issued_run. apply list_elem_of_here.
Defined.

(** ** Upserts onto an existing record *)
Section ExistingRecord.
Import LessonView Session.

(** Updating an existing row overwrites the columns of [data] only. *)
Lemma upserted_existing (w : World) (data : ProgressData.t) (row : UserProgress.t) :
  user_progress w !! (ProgressData.user_id data, ProgressData.lesson_id data) = Some row →
  upserted w data !! (ProgressData.user_id data, ProgressData.lesson_id data)
  = Some (patch data row)
  ∧ ∀ key, key ≠ (ProgressData.user_id data, ProgressData.lesson_id data) →
           upserted w data !! key = user_progress w !! key.
Proof.
  intros Hrow. unfold upserted. rewrite Hrow. split.
  - by rewrite lookup_alter_eq, Hrow.
  - intros key Hne. by rewrite lookup_alter_ne.
Qed.

(** An upsert of a pair that has no row yet creates it, with no
    [completed_at] unless the upsert carries one. *)
Lemma upserted_fresh (w : World) (data : ProgressData.t) :
  user_progress w !! (ProgressData.user_id data, ProgressData.lesson_id data) = None →
  upserted w data !! (ProgressData.user_id data, ProgressData.lesson_id data)
  = Some (fresh_row w data).
Proof. intros Hrow. unfold upserted. rewrite Hrow. apply lookup_insert_eq. Qed.

(** The store after an operation that issues the upsert [data]. *)
Lemma run_upserted (props : Props) (op : Operation) (s : State) (w : World)
    (data : ProgressData.t) :
  data ∈ upserts (effects props op s w) →
  ∃ s' w', run props op s w = Some (s', w') ∧ user_progress w' = upserted w data.
Proof.
  intros Hin.
  destruct (upsert_issued props op s w data Hin)
    as (uid & Hu & [(-> & ->)|[(-> & Hsel & [a Ha] & ->)|(Hop & ->)]]); simpl.
  - destruct (mount_run props uid w Hu) as (w' & Hrun & _ & _ & Hp & _). eauto.
  - destruct (handleAnswerSubmit_run props uid a s w Hu Hsel Ha)
      as (w' & Hrun & _ & _ & Hp & _). eauto.
  - unfold effects in Hin. rewrite Hu in Hin. destruct Hop as [-> | ->]; simpl in *.
    + destruct (decide _) as [Hlt|Hge]; [by apply elem_of_nil in Hin|].
      destruct (handleNextQuestion_last props uid s w Hu) as (w' & Hrun & _ & _ & Hp & _);
        [lia|]. eauto.
    + destruct (handleCompleteLesson_run props uid s w Hu)
        as (w' & Hrun & _ & _ & Hp & _). eauto.
Qed.

End ExistingRecord.

(** C10: a progress upsert whose status is not [completed] carries no
    [completed_at]; when it lands on an existing record (as when a completed
    lesson is opened again, which writes [in_progress] at 0), the record takes
    the new status and percentage and keeps the [completed_at] it had. *)
Theorem incomplete_upsert_keeps_completed_at (props : LessonView.Props)
    (op : LessonView.Operation) (s : LessonView.State) (w : World)
    (data : ProgressData.t) :
  data ∈ Session.upserts (Session.issued (Session.run props op s) w) →
  ProgressData.status data ≠ completed →
  let key := (ProgressData.user_id data, ProgressData.lesson_id data) in
  ProgressData.completed_at data = None
  ∧ ∀ row, user_progress w !! key = Some row →
      ∃ s' w' row',
        Session.run props op s w = Some (s', w')
        ∧ user_progress w' !! key = Some row'
        ∧ UserProgress.completed_at row' = UserProgress.completed_at row
        ∧ UserProgress.status row' = ProgressData.status data
        ∧ UserProgress.completion_percentage row'
          = ProgressData.completion_percentage data
        ∧ UserProgress.id row' = UserProgress.id row
        ∧ UserProgress.started_at row' = UserProgress.started_at row
        ∧ ∀ other, other ≠ key → user_progress w' !! other = user_progress w !! other.
Proof.
  rewrite issued_run. intros Hin Hst key.
  assert (Hnone : ProgressData.completed_at data = None).
  { destruct (upsert_issued props op s w data Hin)
      as (uid & Hu & [(-> & ->)|[(-> & Hsel & Ha & ->)|(Hop & ->)]]); done. }
  split; [done|]. intros row Hrow.
  destruct (run_upserted props op s w data Hin) as (s' & w' & Hrun & Hp).
  destruct (upserted_existing w data row Hrow) as [Hkey Hother].
  exists s', w', (patch data row). rewrite Hp.
  split; [done|]. split; [done|].
  split; [simpl; by rewrite Hnone|]. by repeat split.
Qed.

Lemma incomplete_upsert_witness :
  ∃ (s' : LessonView.State) (w' : World) (row' : UserProgress.t),
    Session.run Sample.quizProps LessonView.SessionOpen (Sample.answering 0 0)
      Sample.revisited = Some (s', w')
    ∧ user_progress w' !! ("u1", "L1") = Some row'
    ∧ UserProgress.completed_at row' = Some 1690000000000
    ∧ UserProgress.status row' = in_progress
    ∧ UserProgress.completion_percentage row' = 0.
Proof.
  destruct (incomplete_upsert_keeps_completed_at Sample.quizProps
              LessonView.SessionOpen (Sample.answering 0 0) Sample.revisited
              (Session.progressData_in Sample.quizProps "u1" 1700000000000
                 in_progress 0 (set_reads 1 Sample.revisited)))
    as [_ Hrow].
  - rewrite issued_run. apply list_elem_of_here.
  - done.
  - destruct (Hrow (Sample.record "L1" "C1" completed 100 6 1690000000000))
      as (s' & w' & row' & Hrun & Hlook & Hc & Hs & Hp & _).
    + apply lookup_singleton_eq.
    + exists s', w', row'. by repeat split.
Defined.

(** * Further properties of the views *)

(** ** Percentages *)
Section PercentOrder.

Lemma exact_percent_mono (c c' t : nat) :
  (c ≤ c')%nat → (0 < t)%nat → exact_percent c t ≤ exact_percent c' t.
Proof.
  intros Hc Ht. unfold exact_percent. apply Z.div_le_mono; lia.
Qed.

Lemma filter_all_length {A} (P : A → Prop) `{!∀ x, Decision (P x)} (l : list A) :
  length (filter P l) = length l ↔ Forall P l.
Proof.
  induction l as [|x l IH]; [by split|].
  rewrite filter_cons, Forall_cons. pose proof (length_filter P l) as Hle.
  destruct (decide (P x)) as [Hx|Hx]; simpl.
  - rewrite <- IH. split; [intros [=]; by split|intros [_ ->]; done].
  - split; [lia|tauto].
Qed.

Lemma filter_none_length {A} (P : A → Prop) `{!∀ x, Decision (P x)} (l : list A) :
  length (filter P l) = 0%nat ↔ Forall (λ x, ¬ P x) l.
Proof.
  induction l as [|x l IH]; [by split|].
  rewrite filter_cons, Forall_cons.
  destruct (decide (P x)) as [Hx|Hx]; simpl.
  - split; [done|tauto].
  - rewrite IH. tauto.
Qed.

End PercentOrder.

(** X1: [Math.round((c / t) * 100)] never goes down when one more record
    is completed: for [c <= c' <= t] (fewer than [2 ^ 32] records) the
    percentage of [c] is at most that of [c'], although both are computed in
    doubles. *)
Theorem percent_monotone (c c' t : nat) :
  (c ≤ c')%nat → (c' ≤ t)%nat → (0 < t)%nat → Z.of_nat t < 2 ^ 32 →
  percent c t ≤ percent c' t.
Proof.
  intros Hc Hc' Ht Hb.
  destruct (decide (c = c')) as [->|Hne]; [lia|].
  pose proof (percent_near c t ltac:(lia) Ht Hb) as [_ Hup].
  pose proof (percent_near c' t Hc' Ht Hb) as [Hlo' _].
  pose proof (exact_percent_mono c c' t Hc Ht) as Hmono.
  destruct (decide (exact_percent c t = exact_percent c' t)) as [Heq|Hlt]; [|lia].
  destruct (Z.eq_dec (200 * Z.of_nat c' mod (2 * Z.of_nat t)) (Z.of_nat t))
    as [Hh|Hnh]; fold (halfway c' t) in *.
  - apply halfway_spec in Hh; [|done].
    pose proof (exact_percent_spec c t Ht) as [Hlo _]. rewrite Heq in Hlo. nia.
  - rewrite (percent_exact c' t Hc' Ht Hb Hnh). lia.
Qed.

Lemma percent_monotone_witness : percent 22 40 ≤ percent 23 40.
Proof. apply percent_monotone; (lia || reflexivity). Defined.

(** X2: for a course with fewer than 200 progress records (and at least
    one), the course card shows 100 exactly when every record is completed,
    and 0 exactly when none is. *)
Theorem card_extremes (progress : list UserProgress.t) :
  progress ≠ [] → (length progress < 200)%nat →
  (CourseCard.progressPercentage progress = 100
   ↔ Forall (λ p, UserProgress.status p = completed) progress)
  ∧ (CourseCard.progressPercentage progress = 0
     ↔ Forall (λ p, UserProgress.status p ≠ completed) progress).
Proof.
  intros Hne Hlen. unfold CourseCard.progressPercentage.
  set (c := length (filter (λ p, UserProgress.status p = completed) progress)).
  set (t := length progress) in *.
  assert (Ht : (0 < t)%nat) by (unfold t; destruct progress; [done|simpl; lia]).
  assert (Hct : (c ≤ t)%nat) by apply count_completed_le.
  destruct (Nat.ltb_spec 0 t) as [_|]; [|lia].
  assert (Hb : Z.of_nat t < 2 ^ 32) by lia.
  pose proof (percent_near c t Hct Ht Hb) as [Hlo Hup].
  pose proof (exact_percent_spec c t Ht) as [Hslo Hshi].
  assert (Hall : c = t ↔ Forall (λ p, UserProgress.status p = completed) progress)
    by apply filter_all_length.
  assert (Hnone : c = 0%nat
                  ↔ Forall (λ p, UserProgress.status p ≠ completed) progress)
    by apply filter_none_length.
  rewrite <- Hall, <- Hnone. split; split.
  - intros H100. destruct (decide (c = t)) as [|Hn]; [done|]. nia.
  - intros ->. by apply percent_full.
  - intros H0. destruct (decide (c = 0%nat)) as [|Hn]; [done|].
    destruct (Z.eq_dec (200 * Z.of_nat c mod (2 * Z.of_nat t)) (Z.of_nat t))
      as [Hh|Hnh]; fold (halfway c t) in *.
    + apply halfway_spec in Hh; [|done]. nia.
    + rewrite (percent_exact c t Hct Ht Hb Hnh) in H0. nia.
  - intros ->. apply percent_none.
Qed.

Lemma card_extremes_witness :
  CourseCard.progressPercentage Sample.oneRecord = 100
  ↔ Forall (λ p, UserProgress.status p = completed) Sample.oneRecord.
Proof.
  apply (card_extremes Sample.oneRecord); [done|simpl; lia].
Defined.

(** ** The cards of the progress dashboard *)
Section Cards.
Import JS.

(** [Math.floor(n / d)] is the integer quotient. *)
Lemma Math_floor_div n d :
  0 ≤ n < 2 ^ 52 → 0 < d → JSMath.Math_floor (div n d) = n / d.
Proof.
  intros [Hn0 Hn] Hd. unfold div.
  destruct (Z.eq_dec n 0) as [->|Hnz]; [reflexivity|].
  destruct (round_q_small n d) as (H & e & -> & He & HH & Hp1 & Hp & Hlo & Hhi);
    [lia|lia|nia|].
  unfold JSMath.Math_floor. simpl. destruct (Z.ltb_spec e 0); [|lia]. rewrite Hp.
  pose proof (Z.div_mod n d ltac:(lia)) as Hdm.
  pose proof (Z.mod_pos_bound n d ltac:(lia)) as Hr.
  set (K := n / d) in *.
  assert (HdH : d < 2 * H) by nia.
  assert (Hlow : K * (2 * H) ≤ rne (n * (2 * H)) d).
  { apply rne_ge; [lia|]. nia. }
  assert (Hupp : rne (n * (2 * H)) d ≤ (K + 1) * (2 * H) - 1).
  { apply rne_below_half; [lia|]. nia. }
  symmetry.
  apply (Z.div_unique _ _ K (rne (n * (2 * H)) d - 2 * H * K)); lia.
Qed.



End Cards.



(** X4: the "Learning Time" card shows the whole hours of the total
    minutes: [Math.floor(totalTime / 60)], computed through a double, is the
    integer quotient of [totalTime] by 60 for every total from 0 up to
    [2 ^ 52]. *)
Theorem learningHours_whole (records : list UserProgress.t) :
  0 ≤ ProgressDashboard.totalTime records < 2 ^ 52 →
  ProgressCards.learningHours records = ProgressDashboard.totalTime records / 60
  ∧ 60 * ProgressCards.learningHours records ≤ ProgressDashboard.totalTime records
    < 60 * (ProgressCards.learningHours records + 1).
Proof.
  intros Ht. unfold ProgressCards.learningHours.
  rewrite Math_floor_div by lia. split; [done|].
  pose proof (Z.div_mod (ProgressDashboard.totalTime records) 60 ltac:(lia)).
  pose proof (Z.mod_pos_bound (ProgressDashboard.totalTime records) 60 ltac:(lia)).
  lia.
Qed.

Lemma learningHours_whole_witness :
  ProgressCards.learningHours
    [Sample.record "L1" "C1" completed 100 119 0;
     Sample.record "L2" "C1" in_progress 10 60 0] = 2.
Proof.
  apply (learningHours_whole
           [Sample.record "L1" "C1" completed 100 119 0;
            Sample.record "L2" "C1" in_progress 10 60 0]).
  by compute.
Defined.


(** ** The dashboard page *)
Section DashboardFacts.
Import DashboardPage.

Lemma calculateStats_cons (p : UserProgress.t) (records : list UserProgress.t) :
  calculateStats (p :: records)
  = let '(completedLessons, totalTime, inProgressCourses) := calculateStats records in
    ((if decide (UserProgress.status p = completed)
      then S completedLessons else completedLessons),
     UserProgress.time_spent_minutes p + totalTime,
     (if decide (UserProgress.status p = in_progress
                 ∧ UserProgress.course_id p ∉ inProgressIds records)
      then S inProgressCourses else inProgressCourses)).
Proof.
  unfold calculateStats, inProgressIds. rewrite !foldl_minutes, !filter_cons.
  apply pair_equal_spec; split; [apply pair_equal_spec; split|].
  - by destruct (decide (UserProgress.status p = completed)).
  - simpl. lia.
  - destruct (decide (UserProgress.status p = in_progress)) as [Hs|Hs]; simpl.
    + set (ids := UserProgress.course_id
                    <$> filter (λ p, UserProgress.status p = in_progress) records).
      destruct (decide (UserProgress.course_id p ∈ ids)) as [Hin|Hout].
      * rewrite decide_False by tauto. f_equal.
        apply set_eq. intros x. rewrite elem_of_union, elem_of_singleton.
        split; [intros [->|Hx]; [by apply elem_of_list_to_set|done]|by right].
      * rewrite decide_True by done.
        rewrite size_union, size_singleton; [done|].
        apply disjoint_singleton_l. by rewrite elem_of_list_to_set.
    + rewrite decide_False by tauto. done.
Qed.

End DashboardFacts.

Section DashboardStats.
Import DashboardPage.

Lemma inProgressCourses_distinct (records : list UserProgress.t) :
  snd (calculateStats records) = length (remove_dups (inProgressIds records)).
Proof.
  unfold calculateStats. simpl. fold (inProgressIds records).
  rewrite <- (size_list_to_set (C := gset string)) by apply NoDup_remove_dups.
  f_equal. apply set_eq. intros x.
  by rewrite !elem_of_list_to_set, elem_of_remove_dups.
Qed.

Lemma inProgressIds_nil (records : list UserProgress.t) :
  inProgressIds records = []
  ↔ Forall (λ p, UserProgress.status p ≠ in_progress) records.
Proof.
  unfold inProgressIds. rewrite <- filter_none_length. split.
  - intros H. apply (f_equal length) in H. by rewrite length_fmap in H.
  - intros H. apply length_zero_iff_nil in H. by rewrite H.
Qed.

Lemma remove_dups_length (l : list string) :
  (length (remove_dups l) ≤ length l)%nat.
Proof.
  induction l as [|x l IH]; [done|]. simpl.
  destruct (decide_rel elem_of x l); simpl; lia.
Qed.

End DashboardStats.

(** X6: the "Active Courses" number of the dashboard page is the number of
    distinct course ids among the records in progress: a further record
    raises it by one only if it is in progress for a course that had no
    record in progress, so several lessons of one course count once; it is
    never more than the number of records in progress, and 0 exactly when
    no record is in progress. *)
Theorem inProgressCourses_counts (records : list UserProgress.t) :
  let count := λ rs : list UserProgress.t, snd (DashboardPage.calculateStats rs) in
  count records = length (remove_dups (DashboardPage.inProgressIds records))
  ∧ (count records
     ≤ length (filter (λ p, UserProgress.status p = in_progress) records))%nat
  ∧ (count records = 0%nat
     ↔ Forall (λ p, UserProgress.status p ≠ in_progress) records)
  ∧ ∀ p, count (p :: records)
         = if decide (UserProgress.status p = in_progress
                      ∧ UserProgress.course_id p ∉ DashboardPage.inProgressIds records)
           then S (count records) else count records.
Proof.
  intros count. unfold count.
  rewrite inProgressCourses_distinct. split; [done|]. split; [|split].
  - etrans; [apply remove_dups_length|].
    unfold DashboardPage.inProgressIds. by rewrite length_fmap.
  - rewrite <- inProgressIds_nil. rewrite length_zero_iff_nil.
    split; [|by intros ->].
    intros Hnil. destruct (DashboardPage.inProgressIds records) as [|x l]; [done|].
    assert (Hx : x ∈ remove_dups (x :: l)) by (apply elem_of_remove_dups; left).
    rewrite Hnil in Hx. by apply elem_of_nil in Hx.
  - intros p. rewrite calculateStats_cons.
    rewrite <- inProgressCourses_distinct.
    by destruct (DashboardPage.calculateStats records) as [[? ?] ?].
Qed.

(** X7: whatever is clicked on the dashboard page, the course page is
    rendered exactly when the last click was on a course card, and then for
    that course; in particular the view ['course-detail'] never occurs
    without a selected course. *)
Theorem detail_follows_last_click (clicks : list DashboardPage.Click) :
  let nav := foldl (λ n c, DashboardPage.click c n) DashboardPage.initial clicks in
  DashboardPage.detailShown nav
  = match last clicks with
    | Some (DashboardPage.ClickCourse course) => Some course
    | _ => None
    end
  ∧ (DashboardPage.currentView nav = DashboardPage.view_course_detail →
     is_Some (DashboardPage.selectedCourse nav)).
Proof.
  induction clicks as [|c clicks _] using rev_ind; [by split|].
  rewrite foldl_app, last_snoc. simpl.
  destruct c; unfold DashboardPage.detailShown; simpl; split; done.
Qed.

(** X8: the page's copy of the profile stays equal to the user's row of
    the [profiles] table through [updateProfile]: if it mirrors the row
    before an update that does not touch the [id], it mirrors it afterwards,
    whether the request succeeds (both take the new values of the named
    columns and keep the others) or fails (both are left as they were). *)
Theorem updateProfile_coherent (uid : string) (updates : ProfileUpdates.t)
    (fails : bool) (st : DashboardPage.ProfileState) :
  ProfileUpdates.id updates = None →
  DashboardPage.profile st = DashboardPage.profiles st !! uid →
  let st' := DashboardPage.updateProfile (Some uid) updates fails st in
  DashboardPage.profile st' = DashboardPage.profiles st' !! uid
  ∧ (fails = true → st' = st)
  ∧ (fails = false →
     DashboardPage.profile st'
     = (λ prev, DashboardPage.merge prev updates) <$> DashboardPage.profile st)
  ∧ (∀ other, other ≠ uid →
       DashboardPage.profiles st' !! other = DashboardPage.profiles st !! other)
  ∧ (∀ row, DashboardPage.profile st' = Some row →
       ∃ prev, DashboardPage.profile st = Some prev ∧ Profile.id row = Profile.id prev).
Proof.
  intros Hid Hmirror st'. unfold st', DashboardPage.updateProfile,
    DashboardPage.profiles_update.
  destruct fails; simpl.
  - split; [done|]. split; [by destruct st|]. split; [done|]. split; [done|].
    intros row Hrow. by exists row.
  - split; [by rewrite lookup_alter_eq, Hmirror|]. split; [done|]. split; [done|].
    split; [intros other Hne; by rewrite lookup_alter_ne|].
    intros row Hrow. destruct (DashboardPage.profile st) as [prev|]; [|done].
    exists prev. split; [done|]. injection Hrow as <-. simpl. by rewrite Hid.
Qed.

Lemma updateProfile_coherent_witness :
  let st' :=
    DashboardPage.updateProfile (Some "u1") (Sample2.rename "Grace") false
      Sample2.profileState in
  DashboardPage.profile st' = DashboardPage.profiles st' !! "u1".
Proof.
  destruct (updateProfile_coherent "u1" (Sample2.rename "Grace") false
              Sample2.profileState) as [Hmirror _].
  - done.
  - symmetry. apply lookup_singleton_eq.
  - exact Hmirror.
Defined.

(** ** The lesson list of the course page *)
Section LessonListFacts.
Import LessonList.
Implicit Types (up : list UserProgress.t) (lessons : list Lesson.t).

Lemma getLessonProgress_None up lessonId :
  getLessonProgress up lessonId = None
  ↔ ∀ p, p ∈ up → UserProgress.lesson_id p ≠ lessonId.
Proof.
  unfold getLessonProgress. induction up as [|x l IH]; simpl.
  - split; [intros _ p Hp; by apply elem_of_nil in Hp|done].
  - destruct (bool_decide_reflect (UserProgress.lesson_id x = lessonId)) as [Hx|Hx].
    + split; [done|]. intros Hall. destruct (Hall x); [left|done].
    + rewrite IH. split.
      * intros Hall p [->|Hp]%elem_of_cons; auto.
      * intros Hall p Hp. apply Hall. by right.
Qed.

(** With one record per lesson, [find] returns the record of the lesson. *)
Lemma getLessonProgress_Some up lessonId p :
  NoDup (UserProgress.lesson_id <$> up) →
  getLessonProgress up lessonId = Some p
  ↔ p ∈ up ∧ UserProgress.lesson_id p = lessonId.
Proof.
  unfold getLessonProgress. induction up as [|x l IH]; simpl; intros Hnd.
  - split; [done|]. intros [Hp _]. by apply elem_of_nil in Hp.
  - apply NoDup_cons in Hnd as [Hx Hnd].
    destruct (bool_decide_reflect (UserProgress.lesson_id x = lessonId)) as [Hl|Hl].
    + split.
      * intros [= <-]. split; [left|done].
      * intros [[->|Hp]%elem_of_cons Hid]; [done|].
        destruct Hx. rewrite Hl, <- Hid. by apply list_elem_of_fmap_2.
    + rewrite (IH Hnd). split.
      * intros [Hp Hid]. split; [by right|done].
      * intros [[->|Hp]%elem_of_cons Hid]; [done|by split].
Qed.

End LessonListFacts.

(** X9: in the lesson list of a course page whose progress records are one
    per lesson, a lesson gets the check mark exactly when its record is
    completed, the play icon exactly when its record is in progress, and the
    empty circle exactly when it has no record or one not started; the
    "n% complete" note appears only with a positive percentage and never
    beside a check mark. *)
Theorem lesson_icons (up : list UserProgress.t) (lessonId : string) :
  NoDup (UserProgress.lesson_id <$> up) →
  let icon := LessonList.getProgressIcon up lessonId in
  let recorded := λ st : Status,
    ∃ p, p ∈ up ∧ UserProgress.lesson_id p = lessonId ∧ UserProgress.status p = st in
  (icon = LessonList.CheckCircle ↔ recorded completed)
  ∧ (icon = LessonList.PlayCircle ↔ recorded in_progress)
  ∧ (icon = LessonList.Circle
     ↔ recorded not_started
       ∨ ∀ p, p ∈ up → UserProgress.lesson_id p ≠ lessonId)
  ∧ (∀ n, LessonList.percentNote up lessonId = Some n →
          0 < n ∧ icon ≠ LessonList.CheckCircle).
Proof.
  intros Hnd icon recorded. unfold icon, recorded, LessonList.getProgressIcon,
    LessonList.percentNote.
  pose proof (getLessonProgress_Some up lessonId) as Hsome.
  pose proof (getLessonProgress_None up lessonId) as Hnone.
  destruct (LessonList.getLessonProgress up lessonId) as [p|].
  - destruct (proj1 (Hsome p Hnd) eq_refl) as [Hp Hid].
    assert (Huniq : ∀ q, q ∈ up → UserProgress.lesson_id q = lessonId → q = p).
    { intros q Hq Hqid. assert (Some q = Some p) as [= ->]; [|done].
      symmetry. by apply Hsome. }
    assert (Hnot : ¬ ∀ q, q ∈ up → UserProgress.lesson_id q ≠ lessonId)
      by (intros Hall; by apply (Hall p)).
    assert (Hrec : ∀ st,
               (∃ q, q ∈ up ∧ UserProgress.lesson_id q = lessonId
                     ∧ UserProgress.status q = st)
               ↔ UserProgress.status p = st).
    { intros st. split; [|intros <-; by exists p].
      intros (q & Hq & Hqid & <-). by rewrite (Huniq q Hq Hqid). }
    rewrite !Hrec.
    split; [|split; [|split]].
    + destruct (UserProgress.status p); simpl; split; done.
    + destruct (UserProgress.status p); simpl; split; done.
    + destruct (UserProgress.status p); simpl; split;
        first [done | intros [?|?]; done | by left].
    + intros n. case_decide as Hn; [|done]. intros [= <-].
      destruct Hn as [Hpos Hnc]. split; [done|].
      destruct (UserProgress.status p); simpl; done.
  - assert (Hall : ∀ q, q ∈ up → UserProgress.lesson_id q ≠ lessonId)
      by (by apply Hnone).
    repeat split; try done.
    + intros (q & Hq & Hqid & _). by destruct (Hall q).
    + intros (q & Hq & Hqid & _). by destruct (Hall q).
    + intros _. by right.
Qed.

Lemma lesson_icons_witness :
  LessonList.getProgressIcon Sample.oneRecord "L1" = LessonList.CheckCircle
  ↔ ∃ p, p ∈ Sample.oneRecord ∧ UserProgress.lesson_id p = "L1"
         ∧ UserProgress.status p = completed.
Proof.
  apply (lesson_icons Sample.oneRecord "L1").
  simpl. apply NoDup_singleton.
Defined.

Section CheckMarks.
Import LessonList.
Implicit Types (up : list UserProgress.t) (lessons : list Lesson.t).

Lemma NoDup_fmap_filter {A B} (f : A → B) (P : A → Prop)
    `{!∀ x, Decision (P x)} (l : list A) :
  NoDup (f <$> l) → NoDup (f <$> filter P l).
Proof.
  intros Hnd. apply (sublist_NoDup _ (f <$> l)); [done|].
  apply fmap_sublist, sublist_filter.
Qed.

Lemma icon_check up lessonId :
  NoDup (UserProgress.lesson_id <$> up) →
  getProgressIcon up lessonId = CheckCircle
  ↔ ∃ p, p ∈ up ∧ UserProgress.lesson_id p = lessonId
         ∧ UserProgress.status p = completed.
Proof.
  intros Hnd. unfold getProgressIcon.
  pose proof (getLessonProgress_Some up lessonId) as Hsome.
  destruct (getLessonProgress up lessonId) as [p|] eqn:Hfind.
  - destruct (proj1 (Hsome p Hnd) eq_refl) as [Hp Hid]. split.
    + intros Hicon. exists p. repeat split; [done..|].
      by destruct (UserProgress.status p).
    + intros (q & Hq & Hqid & Hqs).
      assert (Some q = Some p) as [= ->] by (symmetry; by apply Hsome).
      by rewrite Hqs.
  - split; [done|]. intros (q & Hq & Hqid & _).
    assert (None = Some q) by (by apply Hsome). done.
Qed.

(** As many lessons carry the check mark as there are completed records. *)
Lemma check_marks_count lessons up :
  NoDup (Lesson.id <$> lessons) →
  NoDup (UserProgress.lesson_id <$> up) →
  (∀ p, p ∈ up → UserProgress.lesson_id p ∈ Lesson.id <$> lessons) →
  length (filter (λ l, getProgressIcon up (Lesson.id l) = CheckCircle) lessons)
  = length (filter (λ p, UserProgress.status p = completed) up).
Proof.
  intros Hl Hu Hin.
  rewrite <- (length_fmap Lesson.id), <- (length_fmap UserProgress.lesson_id).
  apply Permutation_length, NoDup_Permutation; [by apply NoDup_fmap_filter..|].
  intros x. rewrite !list_elem_of_fmap. split.
  - intros (l & -> & [Hicon Hmem]%list_elem_of_filter).
    apply icon_check in Hicon as (p & Hp & Hid & Hst); [|done].
    exists p. split; [done|]. by apply list_elem_of_filter.
  - intros (p & -> & [Hst Hp]%list_elem_of_filter).
    destruct (proj1 (list_elem_of_fmap _ _ _) (Hin p Hp)) as (l & Hid & Hmem).
    exists l. split; [done|]. apply list_elem_of_filter. split; [|done].
    apply icon_check; [done|]. by exists p.
Qed.

End CheckMarks.

(** X10: on a course page whose lessons have distinct ids and whose
    progress records are one per lesson of the course, the number of lessons
    with a check mark is the number of completed records, so the percentage
    in the header is the rounded share of check-marked lessons, between 0
    and 100. *)
Theorem detail_percentage_counts_check_marks (lessons : list Lesson.t)
    (up : list UserProgress.t) :
  NoDup (Lesson.id <$> lessons) →
  NoDup (UserProgress.lesson_id <$> up) →
  (∀ p, p ∈ up → UserProgress.lesson_id p ∈ Lesson.id <$> lessons) →
  let checked :=
    length (filter (λ l, LessonList.getProgressIcon up (Lesson.id l)
                         = LessonList.CheckCircle) lessons) in
  checked = length (filter (λ p, UserProgress.status p = completed) up)
  ∧ (checked ≤ length lessons)%nat
  ∧ CourseDetail.progressPercentage lessons up
    = (if decide (lessons = []) then 0 else percent checked (length lessons))
  ∧ 0 ≤ CourseDetail.progressPercentage lessons up ≤ 100.
Proof.
  intros Hl Hu Hin checked.
  assert (Hcount : checked
                   = length (filter (λ p, UserProgress.status p = completed) up))
    by (by apply check_marks_count).
  assert (Hle : (checked ≤ length lessons)%nat) by apply length_filter.
  assert (Hpct : CourseDetail.progressPercentage lessons up
                 = if decide (lessons = []) then 0
                   else percent checked (length lessons)).
  { unfold CourseDetail.progressPercentage. rewrite <- Hcount.
    by destruct lessons. }
  split; [done|]. split; [done|]. split; [done|].
  rewrite Hpct. case_decide as Hnil; [lia|].
  apply percent_range; [done|]. destruct lessons; [done|simpl; lia].
Qed.

Lemma detail_percentage_witness :
  CourseDetail.progressPercentage Sample.threeLessons Sample.oneRecord
  = (if decide (Sample.threeLessons = []) then 0
     else percent
            (length (filter (λ l, LessonList.getProgressIcon Sample.oneRecord
                                    (Lesson.id l) = LessonList.CheckCircle)
                            Sample.threeLessons))
            (length Sample.threeLessons)).
Proof.
  apply (detail_percentage_counts_check_marks Sample.threeLessons Sample.oneRecord).
  - by apply (bool_decide_unpack _).
  - simpl. apply NoDup_singleton.
  - intros p ->%list_elem_of_singleton. simpl. left.
Defined.

(** Without that condition the header of the course page can show more
    than 100: it divides the completed records by the number of lessons
    listed, so two completed records against one listed lesson give 200. *)
Example detail_percentage_above_100 :
  CourseDetail.progressPercentage [Sample.aLesson "L1" "C1" text]
    [Sample.record "L1" "C1" completed 100 5 0;
     Sample.record "L2" "C1" completed 100 5 0] = 200.
Proof. by vm_compute. Qed.

(** ** What one operation of the lesson view changes *)
Section RunWorld.
Import LessonView Session.
Variable props : Props.

(** The world after an operation: the trace and the attempt log grow by
    what was sent, the progress table takes the upsert, the clock has
    advanced and the questions are as they were. *)
Lemma run_world op s w s' w' :
  run props op s w = Some (s', w') →
  trace w' = trace w ++ effects props op s w
  ∧ user_assessments w' = user_assessments w ++ attempts (effects props op s w)
  ∧ user_progress w' = Store.after_upserts w (effects props op s w)
  ∧ clock w' = clock w
  ∧ assessments_table w' = assessments_table w.
Proof.
  unfold effects, Store.after_upserts. destruct (user props) as [uid|] eqn:Hu.
  - destruct op; simpl.
    + destruct (mount_run props uid w Hu) as (w1 & -> & Ht & Hua & Hp & Hc & _ & Hat).
      intros [= <- <-]. by rewrite app_nil_r.
    + destruct (decide (selectedAnswer s = "")) as [Hsel|Hsel].
      { rewrite (handleAnswerSubmit_unanswered props s w Hsel).
        intros [= <- <-]. by rewrite !app_nil_r. }
      destruct (assessments s !! currentQuestion s) as [a|] eqn:Ha.
      * destruct (handleAnswerSubmit_run props uid a s w Hu Hsel Ha)
          as (w1 & -> & Ht & Hua & Hp & Hc & _ & Hat).
        by intros [= <- <-].
      * unfold handleAnswerSubmit.
        destruct (decide (selectedAnswer s = "" ∨ user props = None)) as [[?|?]|_];
          [done|congruence|].
        by rewrite Ha.
    + destruct (decide (currentQuestion s + 1 < length (assessments s))%nat) as [Hlt|Hge].
      * rewrite (handleNextQuestion_more props s w Hlt).
        intros [= <- <-]. by rewrite !app_nil_r.
      * destruct (handleNextQuestion_last props uid s w Hu)
          as (w1 & -> & Ht & Hua & Hp & Hc & _ & Hat); [lia|].
        intros [= <- <-]. by rewrite app_nil_r.
    + unfold handleCompleteLesson, mbind, M_bind, mret, M_ret, emit.
      destruct (updateProgress_signed_in props uid (startTime s) completed 100 w Hu)
        as (w1 & -> & Ht & Hp & Hua & Hc & _ & Hat).
      intros [= <- <-]. simpl. rewrite Ht, <- app_assoc, app_nil_r. done.
  - destruct op; simpl.
    + destruct (mount_signed_out props w Hu) as (s1 & -> & _).
      intros [= <- <-]. by rewrite !app_nil_r.
    + rewrite (handleAnswerSubmit_signed_out props s w Hu).
      intros [= <- <-]. by rewrite !app_nil_r.
    + unfold handleNextQuestion.
      destruct (_ <? _); unfold mbind, M_bind, mret, M_ret;
        rewrite ?updateProgress_signed_out by done;
        intros [= <- <-]; by rewrite !app_nil_r.
    + unfold handleCompleteLesson, mbind, M_bind, mret, M_ret, emit.
      rewrite updateProgress_signed_out by done.
      intros [= <- <-]. simpl. by rewrite app_nil_r.
Qed.

(** Only an answer with no current question makes an operation throw. *)
Lemma run_succeeds op s w :
  (op = SubmitAnswer → selectedAnswer s ≠ "" → user props ≠ None →
   is_Some (assessments s !! currentQuestion s)) →
  is_Some (run props op s w).
Proof.
  intros Hq. destruct (user props) as [uid|] eqn:Hu.
  - destruct op; simpl.
    + destruct (mount_run props uid w Hu) as (w1 & -> & _). by eexists.
    + destruct (decide (selectedAnswer s = "")) as [Hsel|Hsel].
      { rewrite (handleAnswerSubmit_unanswered props s w Hsel). by eexists. }
      destruct Hq as [a Ha]; [done..|].
      destruct (handleAnswerSubmit_run props uid a s w Hu Hsel Ha) as (w1 & -> & _).
      by eexists.
    + destruct (decide (currentQuestion s + 1 < length (assessments s))%nat) as [Hlt|Hge].
      * rewrite (handleNextQuestion_more props s w Hlt). by eexists.
      * destruct (handleNextQuestion_last props uid s w Hu) as (w1 & -> & _); [lia|].
        by eexists.
    + destruct (handleCompleteLesson_run props uid s w Hu) as (w1 & -> & _).
      by eexists.
  - destruct op; simpl.
    + destruct (mount_signed_out props w Hu) as (s1 & -> & _). by eexists.
    + rewrite (handleAnswerSubmit_signed_out props s w Hu). by eexists.
    + unfold handleNextQuestion.
      destruct (_ <? _); unfold mbind, M_bind, mret, M_ret;
        rewrite ?updateProgress_signed_out by done; by eexists.
    + unfold handleCompleteLesson, mbind, M_bind, mret, M_ret, emit.
      rewrite updateProgress_signed_out by done. by eexists.
Qed.

End RunWorld.

Section OperationFacts.
Import LessonView Session.

Lemma alter_as_insert (f : UserProgress.t → UserProgress.t) (key : string * string)
    (m : gmap (string * string) UserProgress.t) (row : UserProgress.t) :
  m !! key = Some row → alter f key m = <[key := f row]> m.
Proof.
  intros Hrow. apply map_eq. intros k.
  destruct (decide (key = k)) as [<-|Hne].
  - by rewrite lookup_alter_eq, lookup_insert_eq, Hrow.
  - by rewrite lookup_alter_ne, lookup_insert_ne.
Qed.

(** The table after an upsert: one row for the pair, rewritten in place or
    added. *)
Lemma upserted_row (w : World) (data : ProgressData.t) :
  let key := (ProgressData.user_id data, ProgressData.lesson_id data) in
  match user_progress w !! key with
  | Some row =>
      upserted w data !! key = Some (patch data row)
      ∧ size (upserted w data) = size (user_progress w)
  | None =>
      upserted w data !! key = Some (fresh_row w data)
      ∧ size (upserted w data) = S (size (user_progress w))
  end
  ∧ ∀ other, other ≠ key → upserted w data !! other = user_progress w !! other.
Proof.
  intros key. unfold upserted. fold key.
  destruct (user_progress w !! key) as [row|] eqn:Hrow.
  - split; [split|].
    + by rewrite lookup_alter_eq, Hrow.
    + rewrite (alter_as_insert _ _ _ row Hrow). by apply map_size_insert_Some.
    + intros other Hne. by rewrite lookup_alter_ne.
  - split; [split|].
    + apply lookup_insert_eq.
    + by apply map_size_insert_None.
    + intros other Hne. by rewrite lookup_insert_ne.
Qed.

Lemma upserts_effects_cases (props : Props) (op : Operation) (s : State) (w : World) :
  upserts (effects props op s w) = []
  ∨ ∃ data, upserts (effects props op s w) = [data].
Proof.
  unfold effects. destruct (user props); destruct op; simpl; eauto.
  - destruct (decide _); simpl; eauto.
    destruct (assessments s !! currentQuestion s); simpl; eauto.
  - destruct (decide _); simpl; eauto.
Qed.

End OperationFacts.

(** X11: a lesson view writes to its own row only: every progress upsert
    it issues carries the signed-in user's id and the ids of the view's
    lesson and course, and after any operation every row of the progress
    table for another user or another lesson, and the table of questions, are
    as they were. *)
Theorem view_writes_own_row (props : LessonView.Props) (op : LessonView.Operation)
    (s s' : LessonView.State) (w w' : World) :
  Session.run props op s w = Some (s', w') →
  (∀ data, data ∈ Session.upserts (Session.issued (Session.run props op s) w) →
     LessonView.user props = Some (ProgressData.user_id data)
     ∧ ProgressData.lesson_id data = Lesson.id (LessonView.lesson props)
     ∧ ProgressData.course_id data = Course.id (LessonView.course props))
  ∧ (∀ uid lessonId,
       (Some uid, lessonId) ≠ (LessonView.user props, Lesson.id (LessonView.lesson props)) →
       user_progress w' !! (uid, lessonId) = user_progress w !! (uid, lessonId))
  ∧ assessments_table w' = assessments_table w.
Proof.
  intros Hrun. rewrite issued_run.
  destruct (run_world props op s w s' w' Hrun) as (_ & _ & Hp & _ & Hat).
  assert (Hown : ∀ data, data ∈ Session.upserts (Session.effects props op s w) →
     LessonView.user props = Some (ProgressData.user_id data)
     ∧ ProgressData.lesson_id data = Lesson.id (LessonView.lesson props)
     ∧ ProgressData.course_id data = Course.id (LessonView.course props)).
  { intros data Hin.
    destruct (upsert_issued props op s w data Hin)
      as (uid & Hu & [(_ & ->)|[(_ & _ & _ & ->)|(_ & ->)]]); by rewrite Hu. }
  split; [done|]. split; [|done].
  intros uid lessonId Hne. rewrite Hp. unfold Store.after_upserts.
  destruct (upserts_effects_cases props op s w) as [->|[data Hdata]]; [done|].
  rewrite Hdata.
  destruct (Hown data) as (Hu & Hl & _); [rewrite Hdata; left|].
  apply upserted_row. intros [= -> ->]. apply Hne. by rewrite Hu, Hl.
Qed.

Lemma view_writes_own_row_witness :
  ∃ s' w',
    Session.run Sample.quizProps LessonView.Advance (Sample.answering 2 3)
      Sample.revisited = Some (s', w')
    ∧ user_progress w' !! ("u2", "L1") = user_progress Sample.revisited !! ("u2", "L1").
Proof.
  destruct (run_succeeds Sample.quizProps LessonView.Advance (Sample.answering 2 3)
              Sample.revisited) as [[s' w'] Hrun]; [done|].
  exists s', w'. split; [done|].
  by apply (view_writes_own_row Sample.quizProps LessonView.Advance
              (Sample.answering 2 3) s' Sample.revisited w' Hrun).
Defined.

(** X12: when nobody is signed in, no operation of the lesson view throws,
    writes a progress record or logs an attempt: both tables are left as
    they were. *)
Theorem signed_out_writes_nothing (props : LessonView.Props)
    (op : LessonView.Operation) (s : LessonView.State) (w : World) :
  LessonView.user props = None →
  ∃ s' w',
    Session.run props op s w = Some (s', w')
    ∧ user_progress w' = user_progress w
    ∧ user_assessments w' = user_assessments w
    ∧ Session.upserts (Session.issued (Session.run props op s) w) = []
    ∧ Session.attempts (Session.issued (Session.run props op s) w) = [].
Proof.
  intros Hu.
  destruct (run_succeeds props op s w) as [[s' w'] Hrun]; [by rewrite Hu|].
  exists s', w'. split; [done|]. rewrite issued_run.
  destruct (run_world props op s w s' w' Hrun) as (_ & Hua & Hp & _).
  rewrite Hp, Hua. unfold Store.after_upserts, Session.effects. rewrite Hu.
  destruct op; simpl; by rewrite ?app_nil_r.
Qed.

Lemma signed_out_writes_nothing_witness :
  ∃ s' w',
    Session.run
      {| LessonView.lesson := Sample.aLesson "L1" "C1" quiz;
         LessonView.course := Sample.aCourse "C1"; LessonView.user := None |}
      LessonView.SubmitAnswer (Sample.answering 0 3) Sample.world = Some (s', w')
    ∧ user_assessments w' = user_assessments Sample.world.
Proof.
  destruct (signed_out_writes_nothing
              {| LessonView.lesson := Sample.aLesson "L1" "C1" quiz;
                 LessonView.course := Sample.aCourse "C1"; LessonView.user := None |}
              LessonView.SubmitAnswer (Sample.answering 0 3) Sample.world)
    as (s' & w' & Hrun & _ & Hua & _); [done|].
  by exists s', w'.
Defined.

(** X13: the attempt log only grows, by at most one entry per operation:
    an operation appends an entry exactly when it is an answer submission by
    a signed-in user with an answer chosen, and that entry carries the user,
    the chosen answer and the id of the current question; every earlier
    entry is kept unchanged and in place. *)
Theorem attempt_log_append_only (props : LessonView.Props)
    (op : LessonView.Operation) (s s' : LessonView.State) (w w' : World) :
  Session.run props op s w = Some (s', w') →
  ∃ new,
    user_assessments w' = user_assessments w ++ new
    ∧ (length new ≤ 1)%nat
    ∧ (new ≠ []
       ↔ op = LessonView.SubmitAnswer ∧ LessonView.selectedAnswer s ≠ ""
         ∧ LessonView.user props ≠ None)
    ∧ ∀ attempt, attempt ∈ new →
        LessonView.user props = Some (UserAssessment.user_id attempt)
        ∧ UserAssessment.user_answer attempt = LessonView.selectedAnswer s
        ∧ Assessment.id <$> LessonView.assessments s !! LessonView.currentQuestion s
          = Some (UserAssessment.assessment_id attempt).
Proof.
  intros Hrun.
  destruct (run_world props op s w s' w' Hrun) as (_ & Hua & _).
  exists (Session.attempts (Session.effects props op s w)). split; [done|].
  assert (Hthrow : op = LessonView.SubmitAnswer → LessonView.selectedAnswer s ≠ "" →
                   LessonView.user props ≠ None →
                   is_Some (LessonView.assessments s !! LessonView.currentQuestion s)).
  { intros -> Hsel Hu. simpl in Hrun. unfold LessonView.handleAnswerSubmit in Hrun.
    destruct (decide _) as [[?|?]|_]; [done..|].
    destruct (LessonView.assessments s !! LessonView.currentQuestion s); [by eexists|].
    done. }
  split; [|split].
  - unfold Session.effects. destruct (LessonView.user props); destruct op; simpl;
      try lia.
    + destruct (decide _); simpl; [lia|].
      destruct (LessonView.assessments s !! LessonView.currentQuestion s); simpl; lia.
    + destruct (decide _); simpl; lia.
  - split.
    + intros Hne.
      destruct (Session.attempts (Session.effects props op s w)) as [|attempt l] eqn:Hl;
        [done|].
      destruct (attempt_issued props op s w attempt) as (uid & a & Hu & -> & Ha & _);
        [rewrite Hl; left|].
      split; [done|]. split; [|by rewrite Hu].
      intros Hsel. unfold Session.effects in Hl. rewrite Hu in Hl. simpl in Hl.
      by rewrite decide_True in Hl.
    + intros (-> & Hsel & Hu). destruct (Hthrow eq_refl Hsel Hu) as [a Ha].
      unfold Session.effects. destruct (LessonView.user props); [|done].
      rewrite decide_False, Ha by done. done.
  - intros attempt Hin.
    destruct (attempt_issued props op s w attempt Hin) as (uid & a & Hu & -> & Ha & ->).
    rewrite Hu, Ha. done.
Qed.

Lemma attempt_log_witness :
  ∃ s' w' new,
    Session.run Sample.quizProps LessonView.SubmitAnswer (Sample.answering 0 3)
      Sample.world = Some (s', w')
    ∧ user_assessments w' = user_assessments Sample.world ++ new
    ∧ (length new ≤ 1)%nat.
Proof.
  destruct (run_succeeds Sample.quizProps LessonView.SubmitAnswer
              (Sample.answering 0 3) Sample.world) as [[s' w'] Hrun];
    [intros _ _ _; by eexists|].
  destruct (attempt_log_append_only Sample.quizProps LessonView.SubmitAnswer
              (Sample.answering 0 3) s' Sample.world w' Hrun)
    as (new & Hua & Hlen & _).
  by exists s', w', new.
Defined.

(** X14: every progress upsert the lesson view issues satisfies the
    constraints of the [user_progress] table and of its own making: the
    percentage lies between 0 and 100, the status is [in_progress] or
    [completed] and never [not_started], and [completed_at] is present
    exactly when the status is [completed]. *)
Theorem upsert_within_constraints (props : LessonView.Props)
    (op : LessonView.Operation) (s : LessonView.State) (w : World)
    (data : ProgressData.t) :
  data ∈ Session.upserts (Session.issued (Session.run props op s) w) →
  0 ≤ ProgressData.completion_percentage data ≤ 100
  ∧ ProgressData.status data ≠ not_started
  ∧ (is_Some (ProgressData.completed_at data) ↔ ProgressData.status data = completed).
Proof.
  rewrite issued_run. intros Hin.
  destruct (upsert_issued props op s w data Hin)
    as (uid & Hu & [(_ & ->)|[(_ & _ & [a Ha] & ->)|(_ & ->)]]); simpl.
  - split; [lia|]. split; [done|]. split; [by intros [? ?]|done].
  - split; [|split; [done|split; [by intros [? ?]|done]]].
    apply lookup_lt_Some in Ha. apply percent_range; lia.
  - split; [lia|]. split; [done|]. split; [done|by eexists].
Qed.

Lemma upsert_within_constraints_witness :
  0 ≤ ProgressData.completion_percentage
        (Session.progressData_in Sample.quizProps "u1" 1700000000000 in_progress
           (percent 2 3) (set_reads 1 Sample.world)) ≤ 100.
Proof.
  apply (upsert_within_constraints Sample.quizProps LessonView.SubmitAnswer
           (Sample.answering 1 3) Sample.world).
  rewrite issued_run. apply list_elem_of_here.
Defined.

(** X15: an operation that writes progress leaves exactly one row for the
    user and lesson, carrying the status, percentage, minutes and access
    time just written: if there was a row it is rewritten in place (the table
    keeps its size and the row its [id] and [started_at]), otherwise one row
    is added, with [completed_at] as in the upsert. *)
Theorem upsert_keeps_one_row (props : LessonView.Props) (op : LessonView.Operation)
    (s s' : LessonView.State) (w w' : World) (data : ProgressData.t) :
  Session.run props op s w = Some (s', w') →
  data ∈ Session.upserts (Session.issued (Session.run props op s) w) →
  let key := (ProgressData.user_id data, ProgressData.lesson_id data) in
  ∃ row',
    user_progress w' !! key = Some row'
    ∧ UserProgress.status row' = ProgressData.status data
    ∧ UserProgress.completion_percentage row' = ProgressData.completion_percentage data
    ∧ UserProgress.time_spent_minutes row' = ProgressData.time_spent_minutes data
    ∧ UserProgress.last_accessed_at row' = ProgressData.last_accessed_at data
    ∧ match user_progress w !! key with
      | Some row =>
          size (user_progress w') = size (user_progress w)
          ∧ UserProgress.id row' = UserProgress.id row
          ∧ UserProgress.started_at row' = UserProgress.started_at row
      | None =>
          size (user_progress w') = S (size (user_progress w))
          ∧ UserProgress.completed_at row' = ProgressData.completed_at data
      end.
Proof.
  intros Hrun. rewrite issued_run. intros Hin key.
  destruct (run_world props op s w s' w' Hrun) as (_ & _ & Hp & _).
  assert (Hp' : user_progress w' = Session.upserted w data).
  { rewrite Hp. unfold Store.after_upserts.
    destruct (upserts_effects_cases props op s w) as [Hnil|[d Hd]].
    - rewrite Hnil in Hin. by apply elem_of_nil in Hin.
    - rewrite Hd in Hin |- *. by apply list_elem_of_singleton in Hin as ->. }
  rewrite Hp'. pose proof (upserted_row w data) as [Hrow _]. fold key in Hrow.
  destruct (user_progress w !! key) as [row|]; destruct Hrow as [-> Hsize];
    eexists; (split; [reflexivity|]); by repeat split.
Qed.

Lemma upsert_keeps_one_row_witness :
  ∃ s' w' row',
    Session.run Sample.quizProps LessonView.Advance (Sample.answering 2 3)
      Sample.revisited = Some (s', w')
    ∧ user_progress w' !! ("u1", "L1") = Some row'
    ∧ UserProgress.status row' = completed
    ∧ UserProgress.completion_percentage row' = 100.
Proof.
  destruct (run_succeeds Sample.quizProps LessonView.Advance (Sample.answering 2 3)
              Sample.revisited) as [[s' w'] Hrun]; [done|].
  destruct (upsert_keeps_one_row Sample.quizProps LessonView.Advance
              (Sample.answering 2 3) s' Sample.revisited w'
              (Session.progressData_in Sample.quizProps "u1" 1700000000000
                 completed 100 Sample.revisited) Hrun)
    as (row' & Hrow & Hst & Hpct & _).
  - rewrite issued_run. apply list_elem_of_here.
  - by exists s', w', row'.
Defined.

(** ** Scoring a whole quiz *)
Section Scoring.
Import LessonView Session.
Variable props : Props.
Variable uid : string.
Hypothesis signed_in : user props = Some uid.


End Scoring.

Section ScoringAll.
Import LessonView Session.
Variable props : Props.
Variable uid : string.
Hypothesis signed_in : user props = Some uid.




End ScoringAll.



(** ** Every state of a lesson view *)
Section Reachable.
Import LessonView Session LessonUI LessonInv.
Variable props : Props.
Variable uid : string.
Hypothesis signed_in : user props = Some uid.

Lemma screen_cases s :
  match screen props s with
  | Viewing =>
      ¬ (Lesson.content_type (lesson props) = quiz ∧ (0 < length (assessments s))%nat)
  | AnsweringQuestion i =>
      i = currentQuestion s ∧ showExplanation s = false ∧ quizCompleted s = false
      ∧ (0 < length (assessments s))%nat
  | ShowingExplanation i c =>
      i = currentQuestion s ∧ showExplanation s = true ∧ quizCompleted s = false
      ∧ (0 < length (assessments s))%nat
  | QuizCompleted => quizCompleted s = true ∧ (0 < length (assessments s))%nat
  end.
Proof.
  unfold screen. case_decide as Hq; [|done]. destruct Hq as [_ Hlen].
  destruct (quizCompleted s), (showExplanation s); done.
Qed.

Lemma invariant_open w0 s w :
  mount props w0 = Some (s, w) → invariant props w0 s w [].
Proof.
  destruct (mount_run props uid w0 signed_in)
    as (w1 & -> & _ & Hua & _ & _ & _ & Hat).
  intros [= <- <-]. unfold invariant, answered. simpl.
  rewrite app_nil_r. repeat split; try done; try lia; try by left.
  intros Hne. destruct (if decide _ then _ else _); [done|simpl; lia].
Qed.

Lemma invariant_click w0 s w logged e s' w' :
  invariant props w0 s w logged → offered props s e →
  handle props e s w = Some (s', w') →
  ∃ new, invariant props w0 s' w' (logged ++ new) ∧ (length new ≤ 1)%nat.
Proof.
  intros (HA & Hat & Hua & Hcq & Hans & Hlog & Hsc & Hsel & Hqc) Hoff Hrun.
  pose proof (screen_cases s) as Hscr.
  destruct e as [o| |]; simpl in Hoff, Hrun.
  - destruct Hoff as (i & a & Hi & Ha & Ho). rewrite Hi in Hscr.
    destruct Hscr as (-> & Hse & Hq & Hlen).
    injection Hrun as <- <-. exists []. rewrite app_nil_r. split; [|simpl; lia].
    unfold selectOption. rewrite Hse.
    unfold invariant, answered in *. simpl. rewrite Hse in *.
    repeat split; try done. intros _. right. by exists a.
  - destruct Hoff as [[i Hi] Hne]. rewrite Hi in Hscr.
    destruct Hscr as (-> & Hse & Hq & Hlen).
    destruct (lookup_lt_is_Some_2 (assessments s) (currentQuestion s)) as [a Ha];
      [apply Hcq; intros Hnil; rewrite Hnil in Hlen; simpl in Hlen; lia|].
    destruct (handleAnswerSubmit_run props uid a s w signed_in Hne Ha)
      as (w1 & Hrun1 & _ & Hua1 & _ & _ & _ & Hat1).
    rewrite Hrun1 in Hrun. injection Hrun as <- <-.
    exists [attempt_in uid s a w]. split; [|simpl; lia].
    unfold invariant, answered in *. simpl. rewrite Hse in *.
    rewrite Nat.add_0_r in *.
    split; [done|]. split; [congruence|].
    split; [by rewrite Hua1, Hua, <- app_assoc|].
    split; [done|]. split; [apply lookup_lt_Some in Ha; lia|].
    split.
    { rewrite Nat.add_1_r, (take_S_r _ _ a) by done.
      apply Forall2_app; [done|]. constructor; [|constructor].
      split; [reflexivity|]. split; [|reflexivity]. simpl.
      destruct (Hsel eq_refl) as [?|(a' & Ha' & Hin)]; [done|]. congruence. }
    split.
    { rewrite filter_app, length_app, Nat2Z.inj_add, <- Hsc.
      rewrite filter_cons, filter_nil. simpl.
      destruct (bool_decide (selectedAnswer s = Assessment.correct_answer a));
        [rewrite decide_True by done|rewrite decide_False by done]; simpl; lia. }
    split; [done|done].
  - destruct Hoff as (i & c & Hi). rewrite Hi in Hscr.
    destruct Hscr as (-> & Hse & Hq & Hlen).
    exists []. rewrite app_nil_r. split; [|simpl; lia].
    destruct (decide (currentQuestion s + 1 < length (assessments s))%nat) as [Hlt|Hge].
    + rewrite (handleNextQuestion_more props s w Hlt) in Hrun.
      injection Hrun as <- <-.
      unfold invariant, answered in *. simpl. rewrite Hse in *.
      rewrite Nat.add_0_r.
      repeat split; try done; try lia; [intros _; by left|congruence].
    + destruct (handleNextQuestion_last props uid s w signed_in)
        as (w1 & Hrun1 & _ & Hua1 & _ & _ & _ & Hat1); [lia|].
      rewrite Hrun1 in Hrun. injection Hrun as <- <-.
      unfold invariant, answered in *. simpl. rewrite Hse in *.
      repeat split; try done; congruence.
Qed.

(** The invariant holds of every state the view reaches. *)
Lemma reachable_invariant w0 s w :
  reachable props w0 s w → ∃ logged, invariant props w0 s w logged.
Proof.
  induction 1 as [s w Hopen|s w e s' w' _ [logged IH] Hoff Hrun].
  - exists []. by apply invariant_open.
  - destruct (invariant_click w0 s w logged e s' w' IH Hoff Hrun) as (new & Hinv & _).
    by eexists.
Qed.

End Reachable.



(** X18: no click the lesson view offers throws: in every state reached
    from the opening of the view by offered clicks, choosing an option,
    "Submit Answer" and "Next Question" / "Complete Quiz" are all handled;
    in particular the question that "Submit Answer" reads is always there. *)
Theorem offered_click_handled (props : LessonView.Props) (w0 : World)
    (s : LessonView.State) (w : World) (e : LessonUI.Event) :
  LessonUI.reachable props w0 s w →
  LessonUI.offered props s e →
  is_Some (LessonUI.handle props e s w).
Proof.
  intros Hreach Hoff. destruct e as [o| |]; simpl.
  - by eexists.
  - apply (run_succeeds props LessonView.SubmitAnswer). intros _ _ Hu.
    destruct (LessonView.user props) as [uid|] eqn:Huid; [|done].
    destruct (reachable_invariant props uid Huid w0 s w Hreach)
      as (logged & _ & _ & _ & Hcq & _).
    destruct Hoff as [[i Hi] _]. pose proof (screen_cases props s) as Hscr.
    rewrite Hi in Hscr. destruct Hscr as (_ & _ & _ & Hlen).
    apply lookup_lt_is_Some_2, Hcq. intros Hnil. rewrite Hnil in Hlen.
    simpl in Hlen. lia.
  - by apply (run_succeeds props LessonView.Advance).
Qed.

Lemma offered_click_handled_witness :
  ∃ s w,
    LessonView.mount Sample.quizProps Sample.world = Some (s, w)
    ∧ is_Some (LessonUI.handle Sample.quizProps LessonUI.ClickSubmit
                 (LessonView.selectOption "B" s) w).
Proof.
  destruct (mount_run Sample.quizProps "u1" Sample.world eq_refl)
    as (w1 & Hmount & _).
  eexists _, w1. split; [exact Hmount|].
  apply (offered_click_handled Sample.quizProps Sample.world).
  - eapply LessonUI.reach_click with (e := LessonUI.ChooseOption "B");
      [by apply LessonUI.reach_open| |reflexivity].
    exists 0%nat, (Sample.question "q1" "L1" "A").
    split; [reflexivity|]. split; [reflexivity|]. simpl. right. left.
  - split; [by exists 0%nat|done].
Defined.

(** ** The course page after a lesson view has written *)
Section CoursePage.
Import LessonView Session LessonList.

Lemma keyed_upserted (w : World) (data : ProgressData.t) :
  Store.keyed (user_progress w) → Store.keyed (upserted w data).
Proof.
  intros Hk key row Hrow.
  destruct (decide (key = (ProgressData.user_id data, ProgressData.lesson_id data)))
    as [->|Hne].
  - pose proof (upserted_row w data) as [Hrow' _]. simpl in Hrow'.
    destruct (user_progress w !! _) as [old|]; destruct Hrow' as [Heq _];
      rewrite Heq in Hrow; by injection Hrow as <-.
  - pose proof (upserted_row w data) as [_ Hother].
    rewrite (Hother key Hne) in Hrow. by apply Hk.
Qed.

(** The row stored by an upsert carries what was written. *)
Lemma upserted_fields (w : World) (data : ProgressData.t) :
  ∃ row,
    upserted w data !! (ProgressData.user_id data, ProgressData.lesson_id data)
    = Some row
    ∧ UserProgress.user_id row = ProgressData.user_id data
    ∧ UserProgress.lesson_id row = ProgressData.lesson_id data
    ∧ UserProgress.course_id row = ProgressData.course_id data
    ∧ UserProgress.status row = ProgressData.status data
    ∧ UserProgress.completion_percentage row
      = ProgressData.completion_percentage data.
Proof.
  pose proof (upserted_row w data) as [Hrow' _]. simpl in Hrow'.
  destruct (user_progress w !! _) as [old|]; destruct Hrow' as [Heq _];
    eexists; (split; [exact Heq|]); by repeat split.
Qed.

(** The row the course page finds for the lesson is the row just written. *)
Lemma fetched_row (w : World) (data : ProgressData.t) :
  Store.keyed (user_progress w) →
  ∃ row,
    getLessonProgress
      (fetchProgress (ProgressData.user_id data) (ProgressData.course_id data)
         (upserted w data))
      (ProgressData.lesson_id data) = Some row
    ∧ UserProgress.status row = ProgressData.status data
    ∧ UserProgress.completion_percentage row
      = ProgressData.completion_percentage data.
Proof.
  intros Hk. pose proof (keyed_upserted w data Hk) as Hk'.
  set (key := (ProgressData.user_id data, ProgressData.lesson_id data)).
  destruct (upserted_fields w data) as (row & Hrow & Hu & Hl & Hc & Hst & Hpct).
  fold key in Hrow.
  exists row. split; [|done].
  assert (Hin : row ∈ fetchProgress (ProgressData.user_id data)
                        (ProgressData.course_id data) (upserted w data)).
  { unfold fetchProgress. apply list_elem_of_filter. split; [done|].
    apply list_elem_of_fmap. exists (key, row). split; [done|].
    by apply elem_of_map_to_list. }
  destruct (getLessonProgress _ _) as [p|] eqn:Hfind.
  - unfold getLessonProgress in Hfind. apply find_some in Hfind as [Hp Hid].
    apply bool_decide_eq_true in Hid. apply list_elem_of_In in Hp.
    unfold fetchProgress in Hp. apply list_elem_of_filter in Hp as [[Hpu _] Hp].
    apply list_elem_of_fmap in Hp as ([k p'] & -> & Hp). simpl in *.
    apply elem_of_map_to_list in Hp. pose proof (Hk' _ _ Hp) as ->.
    rewrite Hpu, Hid in Hp. fold key in Hp. congruence.
  - pose proof (proj1 (getLessonProgress_None _ _) Hfind row Hin) as Hne. done.
Qed.

Lemma run_upsert_store (props : Props) (op : Operation) (s s' : State)
    (w w' : World) (data : ProgressData.t) :
  run props op s w = Some (s', w') →
  data ∈ upserts (effects props op s w) →
  user_progress w' = upserted w data.
Proof.
  intros Hrun Hin.
  destruct (run_world props op s w s' w' Hrun) as (_ & _ & -> & _).
  unfold Store.after_upserts.
  destruct (upserts_effects_cases props op s w) as [Hnil|[d Hd]].
  - rewrite Hnil in Hin. by apply elem_of_nil in Hin.
  - rewrite Hd in Hin |- *. by apply list_elem_of_singleton in Hin as ->.
Qed.

Lemma fetchProgress_insert (uid cid : string)
    (m : gmap (string * string) UserProgress.t) (k : string * string)
    (v : UserProgress.t) :
  m !! k = None →
  fetchProgress uid cid (<[k:=v]> m)
  ≡ₚ (if decide (UserProgress.user_id v = uid ∧ UserProgress.course_id v = cid)
      then [v] else []) ++ fetchProgress uid cid m.
Proof.
  intros Hk. unfold fetchProgress. rewrite map_to_list_insert by done.
  rewrite fmap_cons, filter_cons. simpl. by case_decide.
Qed.

(** The completed rows of the course page before and after an upsert. *)
Lemma completed_after_upsert (w : World) (data : ProgressData.t) :
  Store.keyed (user_progress w) →
  let page := fetchProgress (ProgressData.user_id data) (ProgressData.course_id data) in
  let completedCount (up : list UserProgress.t) :=
    length (filter (λ p, UserProgress.status p = completed) up) in
  (completedCount (page (upserted w data))
   + match user_progress w
           !! (ProgressData.user_id data, ProgressData.lesson_id data) with
     | Some old =>
         if decide (UserProgress.course_id old = ProgressData.course_id data
                    ∧ UserProgress.status old = completed) then 1 else 0
     | None => 0
     end
   = completedCount (page (user_progress w))
     + (if decide (ProgressData.status data = completed) then 1 else 0))%nat.
Proof.
  intros Hk page completedCount.
  set (key := (ProgressData.user_id data, ProgressData.lesson_id data)).
  set (m := user_progress w) in *.
  destruct (upserted_fields w data) as (row & Hrow & Hu & Hl & Hc & Hst & Hpct).
  fold key in Hrow.
  assert (Hm' : upserted w data = <[key := row]> (delete key m)).
  { apply map_eq. intros i. destruct (decide (i = key)) as [->|Hne].
    - by rewrite Hrow, lookup_insert_eq.
    - rewrite lookup_insert_ne, lookup_delete_ne by done.
      by apply upserted_row. }
  assert (Hafter : page (upserted w data) ≡ₚ row :: page (delete key m)).
  { rewrite Hm'. unfold page.
    rewrite fetchProgress_insert by apply lookup_delete_eq.
    by rewrite decide_True. }
  unfold completedCount. rewrite Hafter, filter_cons, Hst.
  destruct (m !! key) as [old|] eqn:Hold.
  - assert (Hbefore : page m
                      ≡ₚ (if decide (UserProgress.user_id old = ProgressData.user_id data
                                     ∧ UserProgress.course_id old
                                       = ProgressData.course_id data)
                          then [old] else []) ++ page (delete key m)).
    { rewrite <- (insert_id m key old Hold) at 1. rewrite <- insert_delete_eq.
      apply fetchProgress_insert, lookup_delete_eq. }
    rewrite Hbefore, filter_app, length_app.
    pose proof (Hk key old Hold) as [= Hou Hol]. symmetry in Hou.
    repeat case_decide; simpl; try rewrite filter_cons; repeat case_decide;
      simpl; try lia; tauto.
  - rewrite (delete_id m key Hold). case_decide; simpl; lia.
Qed.

End CoursePage.


Lemma revisited_keyed : Store.keyed (user_progress Sample.revisited).
Proof.
  intros key row Hrow. unfold Sample.revisited, set_user_progress in Hrow.
  simpl in Hrow. apply lookup_singleton_Some in Hrow as [<- <-]. reflexivity.
Qed.

(** X19: what the course page shows for a lesson follows the last write of
    its view.  When the progress table holds each row under its own user and
    lesson, it still does after any operation of a lesson view, and after an
    operation that wrote progress the course page, fetching the rows of the
    same user and course, finds the written row for the lesson: it shows the
    check mark exactly when the write was a completion and the play icon
    otherwise, never the empty circle, and the "n% complete" note exactly
    when the written percentage is positive and the write was not a
    completion. *)
Theorem lesson_icon_follows_write (props : LessonView.Props) (uid : string)
    (op : LessonView.Operation) (s s' : LessonView.State) (w w' : World)
    (data : ProgressData.t) :
  LessonView.user props = Some uid →
  Store.keyed (user_progress w) →
  Session.run props op s w = Some (s', w') →
  data ∈ Session.upserts (Session.issued (Session.run props op s) w) →
  let page :=
    LessonList.fetchProgress uid (Course.id (LessonView.course props))
      (user_progress w') in
  let lessonId := Lesson.id (LessonView.lesson props) in
  Store.keyed (user_progress w')
  ∧ LessonList.getProgressIcon page lessonId
    = (if decide (ProgressData.status data = completed)
       then LessonList.CheckCircle else LessonList.PlayCircle)
  ∧ LessonList.percentNote page lessonId
    = (if decide (0 < ProgressData.completion_percentage data
                  ∧ ProgressData.status data ≠ completed)
       then Some (ProgressData.completion_percentage data) else None).
Proof.
  intros Hu Hk Hrun. rewrite issued_run. intros Hin page lessonId.
  pose proof (run_upsert_store props op s s' w w' data Hrun Hin) as Hp.
  assert (Hdata : ProgressData.user_id data = uid
                  ∧ ProgressData.lesson_id data = lessonId
                  ∧ ProgressData.course_id data = Course.id (LessonView.course props)
                  ∧ ProgressData.status data ≠ not_started).
  { destruct (upsert_issued props op s w data Hin)
      as (uid' & Hu' & [(_ & ->)|[(_ & _ & _ & ->)|(_ & ->)]]);
      simpl; repeat split; try done; congruence. }
  destruct Hdata as (Hdu & Hdl & Hdc & Hns).
  split; [rewrite Hp; by apply keyed_upserted|].
  destruct (fetched_row w data Hk) as (row & Hfind & Hst & Hpct).
  rewrite Hdu, Hdl, Hdc, <- Hp in Hfind. fold page in Hfind.
  unfold LessonList.getProgressIcon, LessonList.percentNote.
  rewrite Hfind, Hst, Hpct. split; [|done].
  rewrite decide_False by done. done.
Qed.

Lemma lesson_icon_follows_write_witness :
  ∃ s' w',
    LessonView.mount Sample.quizProps Sample.revisited = Some (s', w')
    ∧ LessonList.getProgressIcon
        (LessonList.fetchProgress "u1" "C1" (user_progress w')) "L1"
      = LessonList.PlayCircle.
Proof.
  destruct (mount_run Sample.quizProps "u1" Sample.revisited eq_refl)
    as (w1 & Hmount & _).
  match type of Hmount with _ = Some (?s, _) => set (s0 := s) in * end.
  exists s0, w1. split; [exact Hmount|].
  destruct (lesson_icon_follows_write Sample.quizProps "u1"
              LessonView.SessionOpen (Sample.answering 0 3) s0
              Sample.revisited w1
              (Session.progressData_in Sample.quizProps "u1" 1700000000000
                 in_progress 0 (set_reads 1 Sample.revisited)))
    as (_ & Hicon & _).
  - reflexivity.
  - exact revisited_keyed.
  - exact Hmount.
  - rewrite issued_run. apply list_elem_of_here.
  - exact Hicon.
Defined.

(** X20: the number of completed lessons the course page counts moves
    with the write of a lesson view by the written lesson alone: after an
    operation that wrote progress, the count of completed rows fetched for
    the user and course is the count before, less one if the lesson's row was
    a completed row of this course, plus one if the write was a completion.
    So completing a lesson that was not completed adds one, writing again to
    a completed lesson on reopening it or answering takes one away, and the
    other lessons never count differently. *)
Theorem completed_count_follows_write (props : LessonView.Props) (uid : string)
    (op : LessonView.Operation) (s s' : LessonView.State) (w w' : World)
    (data : ProgressData.t) :
  LessonView.user props = Some uid →
  Store.keyed (user_progress w) →
  Session.run props op s w = Some (s', w') →
  data ∈ Session.upserts (Session.issued (Session.run props op s) w) →
  let page := LessonList.fetchProgress uid (Course.id (LessonView.course props)) in
  let completedCount (up : list UserProgress.t) :=
    length (filter (λ p, UserProgress.status p = completed) up) in
  (completedCount (page (user_progress w'))
   + match user_progress w !! (uid, Lesson.id (LessonView.lesson props)) with
     | Some old =>
         if decide (UserProgress.course_id old = Course.id (LessonView.course props)
                    ∧ UserProgress.status old = completed) then 1 else 0
     | None => 0
     end
   = completedCount (page (user_progress w))
     + (if decide (ProgressData.status data = completed) then 1 else 0))%nat.
Proof.
  intros Hu Hk Hrun. rewrite issued_run. intros Hin page completedCount.
  rewrite (run_upsert_store props op s s' w w' data Hrun Hin).
  pose proof (completed_after_upsert w data Hk) as Hcount. simpl in Hcount.
  assert (Hdata : ProgressData.user_id data = uid
                  ∧ ProgressData.lesson_id data = Lesson.id (LessonView.lesson props)
                  ∧ ProgressData.course_id data = Course.id (LessonView.course props)).
  { destruct (upsert_issued props op s w data Hin)
      as (uid' & Hu' & [(_ & ->)|[(_ & _ & _ & ->)|(_ & ->)]]);
      simpl; repeat split; congruence. }
  destruct Hdata as (Hdu & Hdl & Hdc). by rewrite Hdu, Hdl, Hdc in Hcount.
Qed.

Lemma completed_count_follows_write_witness :
  ∃ s' w',
    LessonView.mount Sample.quizProps Sample.revisited = Some (s', w')
    ∧ (length (filter (λ p, UserProgress.status p = completed)
                 (LessonList.fetchProgress "u1" "C1" (user_progress w'))) + 1
       = length (filter (λ p, UserProgress.status p = completed)
                   (LessonList.fetchProgress "u1" "C1"
                      (user_progress Sample.revisited))) + 0)%nat.
Proof.
  destruct (mount_run Sample.quizProps "u1" Sample.revisited eq_refl)
    as (w1 & Hmount & _).
  match type of Hmount with _ = Some (?s, _) => set (s0 := s) in * end.
  exists s0, w1. split; [exact Hmount|].
  pose proof (completed_count_follows_write Sample.quizProps "u1"
                LessonView.SessionOpen (Sample.answering 0 3) s0
                Sample.revisited w1
                (Session.progressData_in Sample.quizProps "u1" 1700000000000
                   in_progress 0 (set_reads 1 Sample.revisited))) as Hcount.
  apply Hcount.
  - reflexivity.
  - exact revisited_keyed.
  - exact Hmount.
  - rewrite issued_run. apply list_elem_of_here.
Defined.
